(** * LocalLoop: the chat endpoint, the Digital Twin handlers and the turn
      orchestrator

    The development embeds
    - [src/app/api/chat/route.ts]: [getOpenRouterFriendlyError], the zod
      schemas [messagePartSchema], [messageSchema], [chatRequestSchema] and
      the handler [POST];
    - [docs/technical/ai/streaming.md]: the twin-chat handler (context
      loading, tool declarations, [stopWhen: stepCountIs(5)]);
    - [docs/technical/ai/structured-data.md]: the generate-offer handler with
      its output validation;
    and states the properties of the specification over these definitions.

    Conventions.  A JavaScript string is a [string]; one character stands for
    one UTF-16 code unit, so [String.length] is the [.length] that zod's
    [.max] compares.  A JavaScript value is a [JsValue]; numbers carry an
    integer payload because the code only ever inspects their type tag or
    compares them with an integer literal. *)

From Stdlib Require Import String Ascii List ZArith Lia Bool Arith DecimalString.
Import ListNotations.
Local Open Scope string_scope.
Local Open Scope list_scope.
Set Warnings "-register-all".

(** ** JavaScript values *)

Inductive JsValue : Type :=
| JUndefined
| JNull
| JBool (b : bool)
| JNum (n : Z)
| JStr (s : string)
| JArr (items : list JsValue)
| JObj (fields : list (string * JsValue)).

(** Property read [o[k]] on the field list of an object: [undefined] when the
    key is absent. *)
Fixpoint lookup (k : string) (fields : list (string * JsValue)) : JsValue :=
  match fields with
  | [] => JUndefined
  | (k', v) :: rest => if String.eqb k k' then v else lookup k rest
  end.

(** Property read on an arbitrary value; non-objects have no fields. *)
Definition field (k : string) (v : JsValue) : JsValue :=
  match v with
  | JObj fields => lookup k fields
  | _ => JUndefined
  end.

Definition is_undefined (v : JsValue) : bool :=
  match v with JUndefined => true | _ => false end.

(** ** String helpers used by the handlers *)

Definition dquote : string := String (ascii_of_nat 34) EmptyString.

(** [s.startsWith(p)] *)
Definition startsWith (s p : string) : bool := String.prefix p s.

(** [s.includes(needle)] *)
Fixpoint includes (s needle : string) : bool :=
  String.prefix needle s ||
  match s with
  | EmptyString => false
  | String _ rest => includes rest needle
  end.

(** White space removed by [String.prototype.trim], in the Latin-1 range:
    TAB, LF, VT, FF, CR, SPACE and NBSP. *)
Definition is_white_space (c : ascii) : bool :=
  let n := nat_of_ascii c in
  (((9 <=? n) && (n <=? 13)) || (n =? 32) || (n =? 160))%nat.

Fixpoint trimStart (s : string) : string :=
  match s with
  | EmptyString => EmptyString
  | String c rest => if is_white_space c then trimStart rest else s
  end.

Fixpoint trimEnd (s : string) : string :=
  match s with
  | EmptyString => EmptyString
  | String c rest =>
      match trimEnd rest with
      | EmptyString => if is_white_space c then EmptyString else String c EmptyString
      | rest' => String c rest'
      end
  end.

Definition trim (s : string) : string := trimEnd (trimStart s).

Definition is_empty (s : string) : bool :=
  match s with EmptyString => true | _ => false end.

Definition strlen (s : string) : Z := Z.of_nat (String.length s).

(** ** The zod combinators the repository uses

    [z.string()], [.max(n, msg)], [z.number()], [z.enum([...])],
    [z.array(s)], [z.object({...})], [z.union([...])] and [.optional()].
    [.describe(...)] only attaches documentation and is dropped. *)

Module Zod.

Inductive schema : Type :=
| z_string (max : option (Z * string))
| z_number
| z_enum (values : list string)
| z_array (element : schema) (max : option (Z * string))
| z_object (shape : list (string * schema))
| z_union (options : list schema)
| z_optional (inner : schema).

Definition within (max : option (Z * string)) (len : Z) : bool :=
  match max with
  | None => true
  | Some (n, _) => (len <=? n)%Z
  end.

Definition mem_string (s : string) (l : list string) : bool :=
  existsb (String.eqb s) l.

(** [schema.safeParse(v).success] *)
Fixpoint accepts (s : schema) (v : JsValue) {struct s} : bool :=
  match s with
  | z_string max =>
      match v with JStr t => within max (strlen t) | _ => false end
  | z_number =>
      match v with JNum _ => true | _ => false end
  | z_enum values =>
      match v with JStr t => mem_string t values | _ => false end
  | z_array element max =>
      match v with
      | JArr items =>
          forallb (accepts element) items && within max (Z.of_nat (length items))
      | _ => false
      end
  | z_object shape =>
      match v with
      | JObj fields =>
          (fix all_keys (sh : list (string * schema)) : bool :=
             match sh with
             | [] => true
             | (k, sk) :: rest => accepts sk (lookup k fields) && all_keys rest
             end) shape
      | _ => false
      end
  | z_union options =>
      (fix any (os : list schema) : bool :=
         match os with
         | [] => false
         | o :: rest => accepts o v || any rest
         end) options
  | z_optional inner =>
      match v with JUndefined => true | _ => accepts inner v end
  end.

(** A key of a parsed object: kept with its value unless that is
    [undefined]. *)
Definition present (k : string) (d : JsValue) : list (string * JsValue) :=
  if is_undefined d then [] else [(k, d)].

(** [schema.safeParse(v).data]: the parsed value.  Objects keep only the keys
    of the shape (zod strips unknown keys) and omit keys whose parsed value is
    [undefined]; a union yields the data of its first accepting option. *)
Fixpoint data (s : schema) (v : JsValue) {struct s} : JsValue :=
  match s with
  | z_string _ | z_number | z_enum _ => v
  | z_array element _ =>
      match v with JArr items => JArr (map (data element) items) | _ => v end
  | z_object shape =>
      match v with
      | JObj fields =>
          JObj ((fix keep (sh : list (string * schema)) : list (string * JsValue) :=
                   match sh with
                   | [] => []
                   | (k, sk) :: rest => present k (data sk (lookup k fields)) ++ keep rest
                   end) shape)
      | _ => v
      end
  | z_union options =>
      (fix first (os : list schema) : JsValue :=
         match os with
         | [] => v
         | o :: rest => if accepts o v then data o v else first rest
         end) options
  | z_optional inner =>
      match v with JUndefined => JUndefined | _ => data inner v end
  end.

(** [schema.safeParse(v)]: [Some data] on success, [None] on failure. *)
Definition safeParse (s : schema) (v : JsValue) : option JsValue :=
  if accepts s v then Some (data s v) else None.

(** The schema with every [.max] constraint removed: what remains are the
    type and shape requirements. *)
Fixpoint unbounded (s : schema) : schema :=
  match s with
  | z_string _ => z_string None
  | z_number => z_number
  | z_enum values => z_enum values
  | z_array element _ => z_array (unbounded element) None
  | z_object shape =>
      z_object ((fix go (sh : list (string * schema)) : list (string * schema) :=
                   match sh with
                   | [] => []
                   | (k, sk) :: rest => (k, unbounded sk) :: go rest
                   end) shape)
  | z_union options => z_union (map unbounded options)
  | z_optional inner => z_optional (unbounded inner)
  end.

End Zod.

(** ** src/app/api/chat/route.ts *)

Module ChatRoute.
Import Zod.

(** *** getOpenRouterFriendlyError *)

(** The [error: unknown] handed to [onError].  For an object we keep what the
    function reads: whether it is an [Error] instance, [statusCode] (present
    here only when it is a number, which is all [=== 401] can see),
    [responseBody] (present only when [typeof] is ["string"]) and, for
    [Error] instances, [message]. *)
Record ErrorObject : Type := {
  instanceofError : bool;
  statusCode : option Z;
  responseBody : option string;
  message : string
}.

Inductive Thrown : Type :=
| ThrownNullish                    (* null or undefined *)
| ThrownString (s : string)        (* typeof error === "string" *)
| ThrownPrimitive                  (* number, boolean, bigint, symbol, function *)
| ThrownObject (o : ErrorObject).

Definition auth_failed_message : string :=
  "OpenRouter authentication failed (401)." ++ " " ++
  "Check your OPENROUTER_API_KEY in .env (it should start with 'sk-or-v1-'), then restart the dev server.".

Definition rate_limit_message : string :=
  "OpenRouter rate limit hit (429). Please wait a bit and try again.".

Definition unknown_error_message : string := "Unknown AI error.".

Definition user_not_found : string := dquote ++ "User not found" ++ dquote.

Definition thrown_statusCode (e : Thrown) : option Z :=
  match e with ThrownObject o => statusCode o | _ => None end.

Definition thrown_responseBody (e : Thrown) : option string :=
  match e with ThrownObject o => responseBody o | _ => None end.

Definition status_is (code : Z) (sc : option Z) : bool :=
  match sc with Some n => (n =? code)%Z | None => false end.

(** [responseBody?.includes('"User not found"')], as a condition *)
Definition body_mentions_user_not_found (rb : option string) : bool :=
  match rb with Some b => includes b user_not_found | None => false end.

Definition getOpenRouterFriendlyError (error : Thrown) : string :=
  let statusCode := thrown_statusCode error in
  let responseBody := thrown_responseBody error in
  if status_is 401 statusCode || body_mentions_user_not_found responseBody then
    auth_failed_message
  else if status_is 429 statusCode then
    rate_limit_message
  else
    match error with
    | ThrownObject o =>
        if instanceofError o then message o else unknown_error_message
    | ThrownString s => s
    | _ => unknown_error_message
    end.

(** *** The request schemas *)

Definition messagePartSchema : schema :=
  z_object
    [ ("type", z_string None);
      ("text", z_optional (z_string (Some (10000%Z, "Message text too long")))) ].

Definition messageSchema : schema :=
  z_object
    [ ("id", z_optional (z_string None));
      ("role", z_enum ["user"; "assistant"; "system"]);
      ("parts", z_optional (z_array messagePartSchema None));
      ("content", z_optional (z_union [z_string None; z_array messagePartSchema None])) ].

Definition chatRequestSchema : schema :=
  z_object
    [ ("messages", z_array messageSchema (Some (100%Z, "Too many messages"))) ].

(** *** POST *)

(** What one invocation of the handler sees of the outside world. *)
Record Request : Type := {
  session : option string;         (* auth.api.getSession: the user id, if any *)
  json_body : option JsValue       (* req.json(): None when it throws *)
}.

Record Env : Type := {
  OPENROUTER_API_KEY : option string;
  OPENROUTER_MODEL : option string
}.

(** The arguments of the one provider call, [streamText]. *)
Record StreamTextCall : Type := {
  call_apiKey : string;
  call_model : string;
  call_messages : JsValue
}.

Inductive Body : Type :=
| ErrorBody (error : string)
    (* JSON.stringify({ error }) *)
| InvalidRequestBody (rejected : JsValue).
    (* JSON.stringify({ error: "Invalid request",
                        details: parsed.error.flatten().fieldErrors })
       for the body that failed to parse *)

(** What [convertToModelMessages(messages)] of the ai package does with the
    parsed messages: it returns the model messages, or it throws.  The
    function is not part of the repository, so the handler takes it as a
    parameter. *)
Inductive Conversion : Type :=
| Converted (modelMessages : JsValue)
| ConversionThrows (error : Thrown).

(** How one invocation of the handler ends: with a JSON response, with the
    message stream, or with an exception that nothing in the handler
    catches. *)
Inductive Response : Type :=
| JsonResponse (status : Z) (body : Body)
| UIMessageStreamResponse (call : StreamTextCall) (onError : Thrown -> string)
| Uncaught (error : Thrown).

(** The observable actions of the handler, in program order. *)
Inductive Action : Type :=
| GetSession
| ReadJsonBody
| ValidateBody
| ReadApiKey
| StreamText (call : StreamTextCall).

(** A handler run: the value it computes and the actions it performed. *)
Definition Run (A : Type) : Type := (A * list Action)%type.

Definition ret {A} (a : A) : Run A := (a, []).

Definition bind {A B} (m : Run A) (k : A -> Run B) : Run B :=
  let '(a, t1) := m in
  let '(b, t2) := k a in
  (b, t1 ++ t2).

Definition perform {A} (act : Action) (a : A) : Run A := (a, [act]).

Declare Scope run_scope.
Delimit Scope run_scope with run.
Notation "x <- m ;; k" := (bind m (fun x => k))
  (at level 61, m at next level, right associativity) : run_scope.

Definition default_model : string := "openai/gpt-5-mini".

(** [process.env.OPENROUTER_MODEL || "openai/gpt-5-mini"] *)
Definition model_id (env : Env) : string :=
  match OPENROUTER_MODEL env with
  | Some m => if is_empty m then default_model else m
  | None => default_model
  end.

Definition key_not_configured : string :=
  "OpenRouter API key not configured. Set OPENROUTER_API_KEY in .env".

Definition key_invalid : string :=
  "Invalid OPENROUTER_API_KEY. Paste a real OpenRouter key (starts with 'sk-or-v1-') into your .env and restart the dev server.".

Local Open Scope run_scope.

Definition POST (convertToModelMessages : JsValue -> Conversion)
    (env : Env) (req : Request) : Run Response :=
  session <- perform GetSession (session req) ;;
  match session with
  | None => ret (JsonResponse 401 (ErrorBody "Unauthorized"))
  | Some _ =>
      body <- perform ReadJsonBody (json_body req) ;;
      match body with
      | None => ret (JsonResponse 400 (ErrorBody "Invalid JSON"))
      | Some body =>
          parsed <- perform ValidateBody (safeParse chatRequestSchema body) ;;
          match parsed with
          | None => ret (JsonResponse 400 (InvalidRequestBody body))
          | Some parsed_data =>
              let messages := field "messages" parsed_data in
              apiKey <- perform ReadApiKey (option_map trim (OPENROUTER_API_KEY env)) ;;
              match apiKey with
              | None => ret (JsonResponse 500 (ErrorBody key_not_configured))
              | Some apiKey =>
                  if is_empty apiKey then
                    ret (JsonResponse 500 (ErrorBody key_not_configured))
                  else if negb (startsWith apiKey "sk-or-v1-") || includes apiKey "your-key" then
                    ret (JsonResponse 500 (ErrorBody key_invalid))
                  else
                    let model := model_id env in
                    match convertToModelMessages messages with
                    | ConversionThrows error => ret (Uncaught error)
                    | Converted modelMessages =>
                        let call := {| call_apiKey := apiKey;
                                       call_model := model;
                                       call_messages := modelMessages |} in
                        _ <- perform (StreamText call) tt ;;
                        ret (UIMessageStreamResponse call getOpenRouterFriendlyError)
                    end
              end
          end
      end
  end.

Local Close Scope run_scope.

Definition response_of (r : Run Response) : Response := fst r.
Definition actions_of (r : Run Response) : list Action := snd r.

Definition is_StreamText (a : Action) : bool :=
  match a with StreamText _ => true | _ => false end.

(** Whether a run reached the inference provider. *)
Definition calls_provider (r : Run Response) : bool :=
  existsb is_StreamText (actions_of r).

(** *** The two bounds, read off a request body *)

Definition messages_of (body : JsValue) : list JsValue :=
  match field "messages" body with JArr ms => ms | _ => [] end.

Definition message_count (body : JsValue) : Z :=
  Z.of_nat (length (messages_of body)).

Definition array_items (v : JsValue) : list JsValue :=
  match v with JArr items => items | _ => [] end.

(** The parts of a message: the entries of [parts] and of an array-valued
    [content]. *)
Definition parts_of (m : JsValue) : list JsValue :=
  array_items (field "parts" m) ++ array_items (field "content" m).

(** The text of a part, when it has one. *)
Definition part_text (p : JsValue) : option string :=
  match field "text" p with JStr t => Some t | _ => None end.

Definition part_within_bound (p : JsValue) : bool :=
  match part_text p with Some t => (strlen t <=? 10000)%Z | None => true end.

Definition texts_within_bound (body : JsValue) : bool :=
  forallb (fun m => forallb part_within_bound (parts_of m)) (messages_of body).

Definition count_within_bound (body : JsValue) : bool :=
  (message_count body <=? 100)%Z.

(** Shape requirements of the request schema, the bounds left out. *)
Definition well_shaped (body : JsValue) : bool :=
  accepts (unbounded chatRequestSchema) body.

Definition is_ReadApiKey (a : Action) : bool :=
  match a with ReadApiKey => true | _ => false end.

(** The handler got past validation: it went on to read the API key. *)
Definition passes_validation (r : Run Response) : bool :=
  existsb is_ReadApiKey (actions_of r).

(** The answer to a body the schema rejects. *)
Definition invalid_request (body : JsValue) : Run Response :=
  (JsonResponse 400 (InvalidRequestBody body),
   [GetSession; ReadJsonBody; ValidateBody]).

(** A key the handler lets through: present, not blank once trimmed, with the
    OpenRouter prefix and without the placeholder text. *)
Definition key_usable (raw : option string) : bool :=
  match raw with
  | Some k => negb (is_empty (trim k)) && startsWith (trim k) "sk-or-v1-"
              && negb (includes (trim k) "your-key")
  | None => false
  end.

(** No key to speak of: the variable is unset, or blank once trimmed. *)
Definition key_absent_or_blank (raw : option string) : bool :=
  match raw with
  | Some k => is_empty (trim k)
  | None => true
  end.

Definition converts (c : Conversion) : bool :=
  match c with Converted _ => true | ConversionThrows _ => false end.

(** The actions of a run that got as far as the key. *)
Definition checked_key : list Action :=
  [GetSession; ReadJsonBody; ValidateBody; ReadApiKey].

(** The messages handed to [convertToModelMessages]: [parsed.data.messages]. *)
Definition parsed_messages (body : JsValue) : JsValue :=
  field "messages" (data chatRequestSchema body).

End ChatRoute.

(** Truthiness of a value, as [if (v)], [!v] and [v ? a : b] see it. *)
Definition truthy (v : JsValue) : bool :=
  match v with
  | JUndefined | JNull => false
  | JBool b => b
  | JNum n => negb (n =? 0)%Z
  | JStr s => negb (is_empty s)
  | JArr _ | JObj _ => true
  end.

Definition newline : string := String (ascii_of_nat 10) EmptyString.

(** [s.toLowerCase()] in the Latin-1 range: A-Z and the accented capitals. *)
Definition lower_char (c : ascii) : ascii :=
  let n := nat_of_ascii c in
  if (((65 <=? n) && (n <=? 90)) ||
      ((192 <=? n) && (n <=? 222) && negb (n =? 215)))%nat
  then ascii_of_nat (n + 32) else c.

Fixpoint toLowerCase (s : string) : string :=
  match s with
  | EmptyString => EmptyString
  | String c rest => String (lower_char c) (toLowerCase rest)
  end.

(** A number printed by a template literal. *)
Definition decimal (n : Z) : string := NilZero.string_of_int (Z.to_int n).

(** The text a template literal prints for a value that validation has shown
    to be a string. *)
Definition text_of (v : JsValue) : string :=
  match v with JStr s => s | _ => "" end.

(** [xs.join(sep)] *)
Fixpoint join (sep : string) (xs : list string) : string :=
  match xs with
  | [] => ""
  | [x] => x
  | x :: rest => x ++ sep ++ join sep rest
  end.

(** ** docs/technical/ai/streaming.md: the twin-chat handler *)

Module TwinChat.
Import Zod.

(** Rows of the four tables the handler reads, with the columns it uses. *)
Record Card : Type := {
  card_id : string;
  businessName : string;
  industryType : string;
  card_description : string;
  address : JsValue
}.

Record DigitalTwin : Type := {
  twin_cardId : string;
  personalityTraits : JsValue
}.

Record Product : Type := {
  product_cardId : string;
  product_name : string;
  price : string;
  product_description : string;
  category : option string
}.

Record Promotion : Type := {
  promotion_cardId : string;
  promotionType : string;
  discountValue : string;
  conditions : JsValue;
  endDate : JsValue
}.

(** The persistence collaborator. *)
Record Store : Type := {
  cards : list Card;
  cardDigitalTwins : list DigitalTwin;
  products : list Product;
  promotions : list Promotion
}.

Inductive Table : Type := CardsT | CardDigitalTwinsT | ProductsT | PromotionsT.

Inductive JsException : Type :=
| TypeError (reading : string)
    (* Cannot read properties of undefined (reading '...') *)
| SdkError (error : ChatRoute.Thrown).
    (* whatever a function of the ai package throws *)

(** What the handler does to the outside world, in program order. *)
Inductive Effect : Type :=
| Select (t : Table)
| StreamText (system : string) (messages : JsValue).

Record World : Type := {
  store : Store;
  effects : list Effect
}.

Inductive Outcome (A : Type) : Type :=
| Return (a : A)
| Throw (e : JsException).
Arguments Return {A} a.
Arguments Throw {A} e.

(** Handler code: it threads the world and may throw. *)
Definition IO (A : Type) : Type := World -> Outcome A * World.

Definition ret {A} (a : A) : IO A := fun w => (Return a, w).

Definition throw {A} (e : JsException) : IO A := fun w => (Throw e, w).

Definition bind {A B} (m : IO A) (k : A -> IO B) : IO B :=
  fun w =>
    match m w with
    | (Return a, w') => k a w'
    | (Throw e, w') => (Throw e, w')
    end.

Declare Scope io_scope.
Delimit Scope io_scope with io.
Notation "x <- m ;; k" := (bind m (fun x => k))
  (at level 61, m at next level, right associativity) : io_scope.

Definition record_effect (e : Effect) (w : World) : World :=
  {| store := store w; effects := effects w ++ [e] |}.

(** [db.select().from(t).where(p)]: the rows of a table that satisfy [p]. *)
Definition select {Row} (t : Table) (rows : Store -> list Row) (p : Row -> bool)
  : IO (list Row) :=
  fun w => (Return (filter p (rows (store w))), record_effect (Select t) w).

(** [.limit(1)] *)
Definition limit1 {Row} (q : IO (list Row)) : IO (list Row) :=
  fun w => let '(r, w') := q w in
           (match r with Return rows => Return (firstn 1 rows) | Throw e => Throw e end, w').

(** [const [x] = rows]: the first row, or [undefined]. *)
Definition first_of {Row} (rows : list Row) : option Row := hd_error rows.

(** The facts loaded for one turn. *)
Record ContextBundle : Type := {
  card : option Card;
  twin : option DigitalTwin;
  businessProducts : list Product;
  activeOffers : list Promotion
}.

(** The response: the stream of the turn, grounded in the loaded facts. *)
Inductive Response : Type :=
| UIMessageStreamResponse (ctx : ContextBundle) (system : string).

(** The provider call; the SDK turns its result into the response. *)
Definition streamText (system : string) (messages : JsValue) : IO unit :=
  fun w => (Return tt, record_effect (StreamText system messages) w).

(** A call of [convertToModelMessages]: it touches nothing, and returns the
    model messages or throws. *)
Definition converted (result : ChatRoute.Conversion) : IO JsValue :=
  match result with
  | ChatRoute.Converted modelMessages => ret modelMessages
  | ChatRoute.ConversionThrows error => throw (SdkError error)
  end.

(** Reading a property of a possibly [undefined] row. *)
Definition read {Row A} (name : string) (get : Row -> A) (r : option Row) : IO A :=
  match r with
  | Some row => ret (get row)
  | None => throw (TypeError name)
  end.

(** *** The tool declarations of the handler *)

Definition getOffers_inputSchema : schema := z_object [].

Definition getProducts_inputSchema : schema :=
  z_object [ ("category", z_optional (z_string None)) ].

Definition bookAppointment_inputSchema : schema :=
  z_object
    [ ("date", z_string None);
      ("time", z_string None);
      ("service", z_string None);
      ("name", z_string None);
      ("phone", z_optional (z_string None)) ].

Definition tool_inputSchemas : list (string * schema) :=
  [ ("getOffers", getOffers_inputSchema);
    ("getProducts", getProducts_inputSchema);
    ("bookAppointment", bookAppointment_inputSchema) ].

(** *** The tool handlers (lines 135-188), closed over the loaded facts *)

Definition offer_view (o : Promotion) : JsValue :=
  JObj [ ("type", JStr (promotionType o));
         ("discount", JStr (discountValue o));
         ("conditions", conditions o);
         ("endsAt", endDate o) ].

Definition getOffers_execute (ctx : ContextBundle) (_ : JsValue) : JsValue :=
  JArr (map offer_view (activeOffers ctx)).

Definition product_view (p : Product) : JsValue :=
  JObj [ ("name", JStr (product_name p));
         ("price", JStr (price p));
         ("description", JStr (product_description p)) ].

(** [p.category?.toLowerCase().includes(category.toLowerCase())] *)
Definition category_matches (wanted : string) (p : Product) : bool :=
  match category p with
  | Some c => includes (toLowerCase c) (toLowerCase wanted)
  | None => false
  end.

Definition getProducts_execute (ctx : ContextBundle) (input : JsValue) : JsValue :=
  let wanted := field "category" input in
  let filtered :=
    if truthy wanted
    then filter (category_matches (text_of wanted)) (businessProducts ctx)
    else businessProducts ctx in
  JArr (map product_view filtered).

(** [now] is the value of [Date.now()]. *)
Definition bookAppointment_execute (now : Z) (input : JsValue) : JsValue :=
  JObj [ ("status", JStr "Booking request submitted");
         ("message",
           JStr ("We'll contact you to confirm your " ++ text_of (field "service" input) ++
                 " appointment for " ++ text_of (field "date" input) ++
                 " at " ++ text_of (field "time" input)));
         ("reference", JStr ("BK-" ++ decimal now)) ].

Section Handler.

(** [JSON.stringify], used to print two JSON columns into the prompt. *)
Variable JSON_stringify : JsValue -> string.

(** [convertToModelMessages] of the ai package, applied to the [messages] of
    the request body as they came: it returns the model messages or throws. *)
Variable convertToModelMessages : JsValue -> ChatRoute.Conversion.

Local Open Scope io_scope.

(** Lines 81-102: the four queries. *)
Definition load_context (cardId : string) : IO ContextBundle :=
  cardRows <- limit1 (select CardsT cards (fun c => String.eqb (card_id c) cardId)) ;;
  twinRows <- limit1 (select CardDigitalTwinsT cardDigitalTwins
                        (fun t => String.eqb (twin_cardId t) cardId)) ;;
  businessProducts <- select ProductsT products
                        (fun p => String.eqb (product_cardId p) cardId) ;;
  activeOffers <- select PromotionsT promotions
                        (fun o => String.eqb (promotion_cardId o) cardId) ;;
  ret {| card := first_of cardRows;
         twin := first_of twinRows;
         businessProducts := businessProducts;
         activeOffers := activeOffers |}.

Definition product_line (p : Product) : string :=
  "- " ++ product_name p ++ ": $" ++ price p ++ " - " ++ product_description p.

Definition offer_line (o : Promotion) : string :=
  "- " ++ promotionType o ++ ": " ++ discountValue o ++ "% off".

Definition guidelines : string :=
  "GUIDELINES:" ++ newline ++
  "- Be friendly and represent the business authentically" ++ newline ++
  "- Keep responses concise (under 150 words)" ++ newline ++
  "- Promote current offers when relevant" ++ newline ++
  "- If asked something you don't know, offer to connect them with the business owner" ++ newline ++
  "- Never make up information about products or prices".

(** [twin?.personalityTraits ? JSON.stringify(twin.personalityTraits)
                              : "Friendly and helpful"] *)
Definition personality_text (twin : option DigitalTwin) : string :=
  match twin with
  | Some t => if truthy (personalityTraits t)
              then JSON_stringify (personalityTraits t)
              else "Friendly and helpful"
  | None => "Friendly and helpful"
  end.

(** Lines 108-129: the template literal, its interpolations evaluated left
    to right; [card.x] on a missing card throws. *)
Definition systemPrompt (ctx : ContextBundle) : IO string :=
  name <- read "businessName" businessName (card ctx) ;;
  industry <- read "industryType" industryType (card ctx) ;;
  description <- read "description" card_description (card ctx) ;;
  addr <- read "address" address (card ctx) ;;
  ret ("You are the Digital Twin AI for " ++ dquote ++ name ++ dquote ++ "." ++ newline ++
       newline ++
       "PERSONALITY:" ++ newline ++
       personality_text (twin ctx) ++ newline ++
       newline ++
       "BUSINESS INFO:" ++ newline ++
       "- Industry: " ++ industry ++ newline ++
       "- Description: " ++ description ++ newline ++
       "- Location: " ++ (if truthy addr then JSON_stringify addr else "Not specified") ++ newline ++
       newline ++
       "PRODUCTS/SERVICES:" ++ newline ++
       join newline (map product_line (businessProducts ctx)) ++ newline ++
       newline ++
       "CURRENT OFFERS:" ++ newline ++
       join newline (map offer_line (activeOffers ctx)) ++ newline ++
       newline ++
       guidelines)%string.

(** The handler: load the context, build the prompt, convert the messages,
    call the provider and answer with [result.toUIMessageStreamResponse()]. *)
Definition POST (cardId : string) (messages : JsValue) : IO Response :=
  ctx <- load_context cardId ;;
  system <- systemPrompt ctx ;;
  modelMessages <- converted (convertToModelMessages messages) ;;
  _ <- streamText system modelMessages ;;
  ret (UIMessageStreamResponse ctx system).

End Handler.

Definition is_StreamText (e : Effect) : bool :=
  match e with StreamText _ _ => true | _ => false end.

Definition is_Select (e : Effect) : bool :=
  match e with Select _ => true | _ => false end.

Definition initial (s : Store) : World := {| store := s; effects := [] |}.

(** A computation that leaves the persisted records as they were, however it
    ends. *)
Definition preserves_store {A} (m : IO A) : Prop :=
  forall w, store (snd (m w)) = store w.

(** The effects a computation adds to the world. *)
Definition effects_of {A} (m : IO A) (s : Store) : list Effect :=
  effects (snd (m (initial s))).

Definition outcome_of {A} (m : IO A) (s : Store) : Outcome A :=
  fst (m (initial s)).

Definition has_card (s : Store) (cardId : string) : bool :=
  existsb (fun c => String.eqb (card_id c) cardId) (cards s).

End TwinChat.

(** ** docs/technical/ai/structured-data.md: generate-offer with error
       handling *)

Module GenerateOffer.
Import Zod.

Definition offerSchema : schema :=
  z_object
    [ ("title", z_string None);
      ("description", z_string None);
      ("discount", z_number);
      ("conditions", z_optional (z_string None));
      ("socialCaption", z_string None);
      ("seoKeywords", z_array (z_string None) None);
      ("urgencyText", z_string None) ].

Inductive Response : Type :=
| Json (status : Z) (body : JsValue).

Definition error_body (msg : string) : JsValue := JObj [("error", JStr msg)].

(** [body.businessName]: a property read throws on [null] and [undefined]. *)
Definition read_businessName (body : JsValue) : option JsValue :=
  match body with
  | JUndefined | JNull => None
  | _ => Some (field "businessName" body)
  end.

(** The handler.  [json_body] is what [req.json()] yields ([None] when it
    throws); [generated] is what the [generateObject] call yields:
    [result.object], or [None] when the call throws.  Every [None] lands in
    the [catch] block. *)
Definition POST (json_body : option JsValue) (generated : option JsValue) : Response :=
  let failed := Json 500 (error_body "Failed to generate content") in
  match json_body with
  | None => failed
  | Some body =>
      match read_businessName body with
      | None => failed
      | Some businessName =>
          if negb (truthy businessName) then
            Json 400 (error_body "Business name is required")
          else
            match generated with
            | None => failed
            | Some object =>
                match safeParse offerSchema object with
                | None => Json 500 (error_body "Generated content failed validation")
                | Some parsed_data => Json 200 parsed_data
                end
            end
      end
  end.

(** The declared shape, field by field: which fields are required, of which
    type. *)
Definition is_string (v : JsValue) : bool :=
  match v with JStr _ => true | _ => false end.

Definition is_number (v : JsValue) : bool :=
  match v with JNum _ => true | _ => false end.

Definition is_string_array (v : JsValue) : bool :=
  match v with JArr items => forallb is_string items | _ => false end.

Definition conforms (object : JsValue) : Prop :=
  exists fields, object = JObj fields /\
    is_string (lookup "title" fields) = true /\
    is_string (lookup "description" fields) = true /\
    is_number (lookup "discount" fields) = true /\
    (lookup "conditions" fields = JUndefined \/
     is_string (lookup "conditions" fields) = true) /\
    is_string (lookup "socialCaption" fields) = true /\
    is_string_array (lookup "seoKeywords" fields) = true /\
    is_string (lookup "urgencyText" fields) = true.

End GenerateOffer.

(** ** The turn orchestrator

    The tool loop, the stream events and the tool registry run inside the
    [ai] package ([streamText], [toUIMessageStreamResponse]); the repository
    only configures them ([tools], [stopWhen: stepCountIs(5)]).  They are
    modelled from the design in the specification. *)

Module Orchestrator.
Import Zod.

(** Modelled from the spec: the error taxonomy (section 7, with [UnknownTool]
    of section 4.2); the repository has no such enumeration. *)
Inductive ErrorCode : Type :=
| ConfigError
| AuthRejected
| RateLimited
| UnknownTool
| InvalidToolInput
| ToolExecutionError
| ToolTimeout
| StepLimitExceeded
| SchemaValidationError
| UpstreamDisconnect.

(** Modelled from the spec: the "output | error" of a tool invocation
    (section 3). *)
Inductive ToolPayload : Type :=
| Output (value : JsValue)
| Error (code : ErrorCode).

(** Modelled from the spec: ToolInvocationResult, {toolName, input,
    output | error} (section 3). *)
Record ToolInvocationResult : Type := {
  toolName : string;
  input : JsValue;
  payload : ToolPayload
}.

(** Modelled from the spec: a ConversationTurn is an ordered sequence of
    Messages, each with a role and an ordered sequence of Parts, a Part being
    text or a tool invocation result (section 3). *)
Inductive Role : Type := User | Assistant | System.

Inductive Part : Type :=
| TextPart (text : string)
| ToolPart (result : ToolInvocationResult).

Record Message : Type := {
  role : Role;
  parts : list Part
}.

Definition History : Type := list Message.

(** Modelled from the spec: StreamEvent, a tagged variant over text-delta,
    tool-call-started, tool-call-result, turn-error, turn-complete
    (section 3). *)
Inductive StreamEvent : Type :=
| TextDelta (text : string)
| ToolCallStarted (name : string) (input : JsValue)
| ToolCallResult (result : ToolInvocationResult)
| TurnError (code : ErrorCode)
| TurnComplete (text : string).

Definition is_terminal (e : StreamEvent) : bool :=
  match e with
  | TurnError _ | TurnComplete _ => true
  | _ => false
  end.

(** Modelled from the spec: how a tool handler ends; it may throw or exceed
    its timeout (section 4.2). *)
Inductive HandlerOutcome : Type :=
| Produced (output : JsValue)
| HandlerThrew
| HandlerTimedOut.

(** Modelled from the spec: ToolDeclaration, {name, input schema,
    description, execute(input, context)} (section 3).  The input schemas of
    the repository's three tools are [TwinChat.tool_inputSchemas]. *)
Record ToolDeclaration : Type := {
  name : string;
  inputSchema : schema;
  handler : JsValue -> TwinChat.ContextBundle -> HandlerOutcome
}.

Definition Registry : Type := list ToolDeclaration.

(** Modelled from the spec: [resolve(name)] (section 4.2). *)
Definition resolve (registry : Registry) (n : string) : option ToolDeclaration :=
  find (fun d => String.eqb (name d) n) registry.

(** Modelled from the spec: [execute(name, rawInput, context)] (section 4.2):
    validate the input first, then run the handler under its timeout. *)
Definition execute (registry : Registry) (n : string) (rawInput : JsValue)
    (ctx : TwinChat.ContextBundle) : ToolPayload :=
  match resolve registry n with
  | None => Error UnknownTool
  | Some d =>
      if accepts (inputSchema d) rawInput then
        match handler d rawInput ctx with
        | Produced v => Output v
        | HandlerThrew => Error ToolExecutionError
        | HandlerTimedOut => Error ToolTimeout
        end
      else Error InvalidToolInput
  end.

(** Whether [execute] gets as far as running the handler. *)
Definition runs_handler (registry : Registry) (n : string) (rawInput : JsValue) : bool :=
  match resolve registry n with
  | None => false
  | Some d => accepts (inputSchema d) rawInput
  end.

(** Modelled from the spec: one incremental chunk of a provider response: a
    text chunk, a chunk that signals a tool-call request (possibly with
    trailing text), or the loss of the connection (sections 4.3 and 7). *)
Inductive Chunk : Type :=
| TextChunk (text : string)
| ToolCallChunk (name : string) (input : JsValue) (trailing : string)
| ConnectionDropped.

(** Modelled from the spec: what the provider does with one request: refuse
    it (AuthRejected, RateLimited) or respond with a finite chunk sequence
    (sections 6 and 7). *)
Inductive ProviderResponse : Type :=
| Refused (code : ErrorCode)
| Responding (chunks : list Chunk).

Definition Provider : Type := History -> ProviderResponse.

(** Modelled from the spec: what the orchestrator does, in order: requests to
    the provider, runs of tool handlers, events handed to the transport. *)
Inductive Action : Type :=
| CallProvider (history : History)
| RunHandler (name : string) (input : JsValue)
| Emit (event : StreamEvent).

(** [stopWhen: stepCountIs(5)] in docs/technical/ai/streaming.md. *)
Definition default_max_steps : nat := 5.

Section Turn.

Variable provider : Provider.
Variable registry : Registry.
Variable ctx : TwinChat.ContextBundle.

(** Modelled from the spec: the ToolInvocationResult is appended to the
    history as a part, so that later requests see it (section 3). *)
Definition tool_message (r : ToolInvocationResult) : Message :=
  {| role := Assistant; parts := [ToolPart r] |}.

(** Modelled from the spec: the ToolPending state (section 4.3): emit
    tool-call-started, call [execute], append the result to the history, emit
    tool-call-result. *)
Definition tool_pending (n : string) (rawInput : JsValue)
  : ToolInvocationResult * list Action :=
  let r := {| toolName := n; input := rawInput;
              payload := execute registry n rawInput ctx |} in
  (r, Emit (ToolCallStarted n rawInput) ::
      (if runs_handler registry n rawInput then [RunHandler n rawInput] else []) ++
      [Emit (ToolCallResult r)]).

(** Modelled from the spec: the Streaming state (section 4.3).  Each text
    chunk is emitted at once; a tool-call chunk moves to ToolPending and then
    back to Requesting ([resume]) with the updated history, its trailing text
    kept buffered; the end of the chunks completes the turn with the
    assembled text; a dropped connection fails it. *)
Fixpoint streaming (resume : History -> string -> string -> list Action)
    (history : History) (assembled : string) (chunks : list Chunk) : list Action :=
  match chunks with
  | [] => [Emit (TurnComplete assembled)]
  | TextChunk t :: rest =>
      Emit (TextDelta t) :: streaming resume history (assembled ++ t) rest
  | ConnectionDropped :: _ => [Emit (TurnError UpstreamDisconnect)]
  | ToolCallChunk n rawInput trailing :: _ =>
      let '(r, acts) := tool_pending n rawInput in
      acts ++ resume (history ++ [tool_message r]) assembled trailing
  end.

(** Modelled from the spec: the buffered trailing text is emitted when the
    loop resumes (section 4.3, tie-break). *)
Definition flush (buffered : string) : list Action :=
  if is_empty buffered then [] else [Emit (TextDelta buffered)].

(** Modelled from the spec: the Requesting state and the step bound
    (section 4.3).  [remaining] is the number of requests the turn may still
    make; with none left the turn fails with StepLimitExceeded. *)
Fixpoint requesting (remaining : nat) (history : History) (assembled buffered : string)
  : list Action :=
  match remaining with
  | O => [Emit (TurnError StepLimitExceeded)]
  | S k =>
      CallProvider history ::
      match provider history with
      | Refused code => [Emit (TurnError code)]
      | Responding chunks =>
          flush buffered ++
          streaming (requesting k) history (assembled ++ buffered) chunks
      end
  end.

(** Modelled from the spec: one conversation turn, from the first request
    with nothing assembled and nothing buffered. *)
Definition run_turn (max_steps : nat) (history : History) : list Action :=
  requesting max_steps history "" "".

End Turn.

(** Modelled from the spec: the stream transport (section 4.5), an ordered
    multiplexer: the events of a turn in the order they were emitted. *)
Fixpoint events (acts : list Action) : list StreamEvent :=
  match acts with
  | [] => []
  | Emit e :: rest => e :: events rest
  | _ :: rest => events rest
  end.

Definition is_CallProvider (a : Action) : bool :=
  match a with CallProvider _ => true | _ => false end.

Definition is_RunHandler (a : Action) : bool :=
  match a with RunHandler _ _ => true | _ => false end.

Definition is_tool_started (e : StreamEvent) : bool :=
  match e with ToolCallStarted _ _ => true | _ => false end.

Definition provider_calls (acts : list Action) : nat :=
  length (filter is_CallProvider acts).

Definition tool_steps (acts : list Action) : nat :=
  length (filter is_tool_started (events acts)).

Definition is_TextChunk (c : Chunk) : bool :=
  match c with TextChunk _ => true | _ => false end.

(** A response that asks for a tool: text chunks, then a tool-call chunk. *)
Definition requests_tool (r : ProviderResponse) : Prop :=
  exists texts n rawInput trailing rest,
    r = Responding (texts ++ ToolCallChunk n rawInput trailing :: rest) /\
    forallb is_TextChunk texts = true.

(** The registry of the twin-chat handler: its three tools, with the input
    schemas and handlers of docs/technical/ai/streaming.md. *)
Definition twin_registry (now : Z) : Registry :=
  [ {| name := "getOffers";
       inputSchema := TwinChat.getOffers_inputSchema;
       handler := fun input ctx => Produced (TwinChat.getOffers_execute ctx input) |};
    {| name := "getProducts";
       inputSchema := TwinChat.getProducts_inputSchema;
       handler := fun input ctx => Produced (TwinChat.getProducts_execute ctx input) |};
    {| name := "bookAppointment";
       inputSchema := TwinChat.bookAppointment_inputSchema;
       handler := fun input _ => Produced (TwinChat.bookAppointment_execute now input) |} ].

Definition text_delta (t : string) : Action := Emit (TextDelta t).

(** The events of a well-ended turn: one terminal event, in last place. *)
Definition ends_once (evs : list StreamEvent) : Prop :=
  exists init t,
    evs = init ++ [t] /\ is_terminal t = true /\
    forallb (fun e => negb (is_terminal e)) init = true.

End Orchestrator.

(** ** Object shapes, unrolled

    The zod interpreter walks an object shape with a local loop; these are
    the same loops as stand-alone functions, with the condition that the keys
    of every object shape are distinct, as they are in an object literal. *)

Module ZodShape.
Import Zod.

Fixpoint distinct (keys : list string) : bool :=
  match keys with
  | [] => true
  | k :: rest => negb (mem_string k rest) && distinct rest
  end.

Fixpoint well_formed (s : schema) : bool :=
  match s with
  | z_string _ | z_number | z_enum _ => true
  | z_array element _ => well_formed element
  | z_object shape =>
      distinct (map fst shape) &&
      (fix all (sh : list (string * schema)) : bool :=
         match sh with
         | [] => true
         | (_, sk) :: rest => well_formed sk && all rest
         end) shape
  | z_union options =>
      (fix all (os : list schema) : bool :=
         match os with
         | [] => true
         | o :: rest => well_formed o && all rest
         end) options
  | z_optional inner => well_formed inner
  end.

(** The fields kept by [data] for an object. *)
Fixpoint kept_fields (shape : list (string * schema)) (fields : list (string * JsValue))
  : list (string * JsValue) :=
  match shape with
  | [] => []
  | (k, sk) :: rest => present k (data sk (lookup k fields)) ++ kept_fields rest fields
  end.

(** The data of the first option of a union that accepts the value. *)
Fixpoint first_accepting (options : list schema) (v : JsValue) : JsValue :=
  match options with
  | [] => v
  | o :: rest => if accepts o v then data o v else first_accepting rest v
  end.

End ZodShape.

(** ** docs/technical/ai/streaming.md: the card page and the chat component *)

Module TwinChatClient.
Import TwinChat.

(** The props the page hands to [<TwinChat>]. *)
Record TwinChatProps : Type := {
  cardId : string;
  businessName : string;
  businessLogo : JsValue
}.

Inductive PageView : Type :=
| BusinessNotFound                       (* <div>Business not found</div> *)
| CardView (heading : string) (chat : TwinChatProps).

Section Page.

(** The [logoUrl] column of a card, which the context loader does not read. *)
Variable logoUrl : Card -> JsValue.

(** [a || undefined] *)
Definition or_undefined (v : JsValue) : JsValue :=
  if truthy v then v else JUndefined.

Local Open Scope io_scope.

(** [CardPage({ params })], lines 367-389. *)
Definition CardPage (id : string) : IO PageView :=
  rows <- limit1 (select CardsT cards (fun c => String.eqb (card_id c) id)) ;;
  match first_of rows with
  | None => ret BusinessNotFound
  | Some card =>
      ret (CardView (TwinChat.businessName card)
             {| cardId := card_id card;
                businessName := TwinChat.businessName card;
                businessLogo := or_undefined (logoUrl card) |})
  end.

End Page.

(** The state of the chat form that [handleSubmit] reads and writes. *)
Record FormState : Type := {
  input : string;
  isLoading : bool
}.

Inductive FormEffect : Type :=
| PreventDefault
| SendMessage (text : string)
| SetInput (value : string).

(** [handleSubmit], lines 233-238. *)
Definition handleSubmit (st : FormState) : list FormEffect :=
  PreventDefault ::
  if is_empty (trim (input st)) || isLoading st then []
  else [SendMessage (input st); SetInput ""].

(** The [disabled] attribute of the submit button, line 342. *)
Definition submit_disabled (st : FormState) : bool :=
  isLoading st || is_empty (trim (input st)).

Definition sent (effects : list FormEffect) : list string :=
  flat_map (fun e => match e with SendMessage t => [t] | _ => [] end) effects.

(** A string made of white space only (or empty). *)
Fixpoint blank (s : string) : bool :=
  match s with
  | EmptyString => true
  | String c rest => is_white_space c && blank rest
  end.

End TwinChatClient.

(** ** generate-offer: the keys of the declared shape *)

Module OfferShape.

Definition declared_keys : list string :=
  [ "title"; "description"; "discount"; "conditions";
    "socialCaption"; "seoKeywords"; "urgencyText" ].

End OfferShape.

(** ** src/app/dashboard/super-admin/components/merchant-table.tsx *)

Module MerchantTable.

(** [xs.slice(start, end)] for integer arguments: a negative index counts
    from the end, and both are clamped to the length. *)
Definition slice_index (len k : Z) : Z :=
  if (k <? 0)%Z then Z.max (len + k) 0 else Z.min k len.

Definition slice {A} (start stop : Z) (xs : list A) : list A :=
  let len := Z.of_nat (length xs) in
  let from := slice_index len start in
  let to := slice_index len stop in
  firstn (Z.to_nat (to - from)) (skipn (Z.to_nat from) xs).

(** The fields of a merchant that the table's logic reads. *)
Record Merchant : Type := {
  id : string;
  name : string;
  merchantId : string;
  address : string;
  activeDeals : option Z          (* a number, or null *)
}.

(** The component's state: [searchQuery] and [currentPage]. *)
Record State : Type := {
  searchQuery : string;
  currentPage : Z
}.

Definition initial_state : State := {| searchQuery := ""; currentPage := 1 |}.

Definition itemsPerPage : Z := 10.

(** The predicate of [merchants.filter(...)], lines 26-33. *)
Definition matches (searchQuery : string) (merchant : Merchant) : bool :=
  let query := toLowerCase searchQuery in
  includes (toLowerCase (name merchant)) query ||
  includes (toLowerCase (merchantId merchant)) query ||
  includes (toLowerCase (address merchant)) query.

Definition filteredMerchants (merchants : list Merchant) (st : State) : list Merchant :=
  filter (matches (searchQuery st)) merchants.

(** [Math.ceil(n / itemsPerPage)] on a length. *)
Definition ceil_div (n d : Z) : Z := ((n + d - 1) / d)%Z.

Definition totalPages (merchants : list Merchant) (st : State) : Z :=
  ceil_div (Z.of_nat (length (filteredMerchants merchants st))) itemsPerPage.

Definition paginatedMerchants (merchants : list Merchant) (st : State) : list Merchant :=
  slice ((currentPage st - 1) * itemsPerPage) (currentPage st * itemsPerPage)
        (filteredMerchants merchants st).

(** The footer, "Showing [first]-[last] of [total] merchants". *)
Definition showing_first (st : State) : Z := (currentPage st - 1) * itemsPerPage + 1.

Definition showing_last (merchants : list Merchant) (st : State) : Z :=
  Z.min (currentPage st * itemsPerPage)
        (Z.of_nat (length (filteredMerchants merchants st))).

Definition showing_total (merchants : list Merchant) (st : State) : Z :=
  Z.of_nat (length (filteredMerchants merchants st)).

(** The "Active Deals" cell. *)
Definition deals_cell (merchant : Merchant) : string :=
  match activeDeals merchant with
  | Some n => decimal n ++ " Active"
  | None => "-"
  end.

(** The [disabled] attributes of the two page buttons. *)
Definition prev_disabled (st : State) : bool := (currentPage st =? 1)%Z.

Definition next_disabled (merchants : list Merchant) (st : State) : bool :=
  (totalPages merchants st <=? currentPage st)%Z.

(** What the user can do.  A disabled button does not fire its handler. *)
Inductive Event : Type :=
| Type_ (query : string)     (* onChange of the search box *)
| ClickPrev
| ClickNext.

Definition handle (merchants : list Merchant) (st : State) (e : Event) : State :=
  match e with
  | Type_ query => {| searchQuery := query; currentPage := 1 |}
  | ClickPrev =>
      if prev_disabled st then st
      else {| searchQuery := searchQuery st;
              currentPage := Z.max 1 (currentPage st - 1) |}
  | ClickNext =>
      if next_disabled merchants st then st
      else {| searchQuery := searchQuery st;
              currentPage := Z.min (totalPages merchants st) (currentPage st + 1) |}
  end.

Definition run (merchants : list Merchant) (events : list Event) : State :=
  fold_left (handle merchants) events initial_state.

(** Page [p] of the current search. *)
Definition page (merchants : list Merchant) (query : string) (p : Z) : list Merchant :=
  paginatedMerchants merchants {| searchQuery := query; currentPage := p |}.

(** The page number stays between 1 and the number of pages (1 when there
    are none). *)
Definition page_in_range (merchants : list Merchant) (st : State) : Prop :=
  (1 <= currentPage st <= Z.max 1 (totalPages merchants st))%Z.

End MerchantTable.

(** ** scripts/debug-check.ts *)

Module DebugCheck.

(** [s.split(sep)] for a one-character separator. *)
Fixpoint split (sep : ascii) (s : string) : list string :=
  match s with
  | EmptyString => [EmptyString]
  | String c rest =>
      if Ascii.eqb c sep then EmptyString :: split sep rest
      else match split sep rest with
           | piece :: pieces => String c piece :: pieces
           | [] => [String c EmptyString]
           end
  end.

Definition equals_sign : ascii := "="%char.
Definition hash_sign : ascii := "#"%char.
Definition line_feed : ascii := ascii_of_nat 10.

(** The body of the [forEach] callback, lines 48-56: the assignment
    [envVars[key] = value] a line gives rise to, if any. *)
Definition parse_line (line : string) : option (string * string) :=
  let trimmed := trim line in
  if negb (is_empty trimmed) && negb (startsWith trimmed "#") then
    match split equals_sign trimmed with
    | key :: valueParts =>
        if negb (is_empty key) then Some (key, join "=" valueParts) else None
    | [] => None
    end
  else None.

(** [envVars], as the assignments made so far, the latest first.  Reading a
    name gives the latest value assigned to it. *)
Definition EnvVars : Type := list (string * string).

Definition assign (envVars : EnvVars) (line : string) : EnvVars :=
  match parse_line line with
  | Some kv => kv :: envVars
  | None => envVars
  end.

Definition parse_env (envContent : string) : EnvVars :=
  fold_left assign (split line_feed envContent) [].

(** [envVars[name]], for a name that is not a property of [Object.prototype]
    (the script reads POSTGRES_URL, BETTER_AUTH_SECRET and GOOGLE_CLIENT_ID):
    the value, or [undefined]. *)
Fixpoint read (envVars : EnvVars) (name : string) : option string :=
  match envVars with
  | [] => None
  | (k, v) :: rest => if String.eqb k name then Some v else read rest name
  end.

(** [!envVars[name]] *)
Definition missing (envVars : EnvVars) (name : string) : bool :=
  match read envVars name with
  | Some v => is_empty v
  | None => true
  end.

(** [!v || v.trim() === ''], line 86 *)
Definition missing_or_blank (envVars : EnvVars) (name : string) : bool :=
  match read envVars name with
  | Some v => is_empty v || String.eqb (trim v) ""
  | None => true
  end.

(** How the database part of the check goes: [postgres(...)] may throw, the
    query may throw, [sql.end()] may throw, or all three succeed. *)
Inductive DbRun : Type :=
| PostgresThrows (message : string)
| QueryThrows (message : string)
| EndThrows (message : string)
| Connected.

(** What a log entry carries besides its message and hypothesis id. *)
Inductive LogData : Type :=
| NoData
| Keys (envVars : EnvVars)          (* { keys: Object.keys(envVars) } *)
| QueryResult                       (* { result } *)
| ErrorMessage (message : string).  (* { error: error.message } *)

Inductive Output : Type :=
| Log (message : string) (data : LogData) (hypothesisId : string)
| Console (line : string).

(** [main()], lines 33-91.  [exists_] is [fs.existsSync(ENV_FILE)],
    [envContent] the file's text, [db] how the database part goes. *)
Definition main (exists_ : bool) (envContent : string) (db : DbRun) : list Output :=
  Log "Starting debug check" NoData "init" ::
  if negb exists_ then
    [Log ".env file missing" NoData "H1"; Console ".env file missing"]
  else
    let envVars := parse_env envContent in
    [Log ".env file exists" NoData "H1"; Log "Parsed env vars" (Keys envVars) "H2"] ++
    (if missing envVars "POSTGRES_URL" then
       [Log "POSTGRES_URL missing" NoData "H2"; Console "POSTGRES_URL missing"]
     else
       match db with
       | PostgresThrows m => [Log "DB connection failed" (ErrorMessage m) "H3"]
       | QueryThrows m =>
           [Log "Attempting DB connection" NoData "H3";
            Log "DB connection failed" (ErrorMessage m) "H3"]
       | EndThrows m =>
           [Log "Attempting DB connection" NoData "H3";
            Log "DB connection successful" QueryResult "H3";
            Log "DB connection failed" (ErrorMessage m) "H3"]
       | Connected =>
           [Log "Attempting DB connection" NoData "H3";
            Log "DB connection successful" QueryResult "H3"]
       end) ++
    [if missing envVars "BETTER_AUTH_SECRET"
     then Log "BETTER_AUTH_SECRET missing" NoData "H4"
     else Log "BETTER_AUTH_SECRET present" NoData "H4"] ++
    [if missing_or_blank envVars "GOOGLE_CLIENT_ID"
     then Log "GOOGLE_CLIENT_ID missing or empty" NoData "H5"
     else Log "GOOGLE_CLIENT_ID present" NoData "H5"].

Definition hypothesis_of (o : Output) : option string :=
  match o with Log _ _ h => Some h | Console _ => None end.

Definition has_char (c : ascii) (s : string) : bool :=
  existsb (Ascii.eqb c) (list_ascii_of_string s).

(** No value is made of white space only. *)
Definition values_not_blank (envVars : EnvVars) : Prop :=
  forall k v, In (k, v) envVars -> v <> "" -> TwinChatClient.blank v = false.

(** How many log entries carry a hypothesis id. *)
Definition count_hypothesis (h : string) (out : list Output) : nat :=
  length (filter (fun o => match hypothesis_of o with
                           | Some h' => String.eqb h h'
                           | None => false
                           end) out).

End DebugCheck.

(** ** docs/technical/betterauth/polar.md: the route protection middleware *)

Module Middleware.

Definition publicPaths : list string :=
  [ "/"; "/auth/sign-in"; "/auth/sign-up"; "/auth/forgot-password";
    "/api/auth"; "/api/webhooks" ].

Inductive Decision : Type :=
| Next                         (* NextResponse.next() *)
| Redirect (to : string).      (* NextResponse.redirect(new URL(to, request.url)) *)

(** [middleware(request)], lines 737-753.  [pathname] is
    [request.nextUrl.pathname]; [sessionCookie] is
    [request.cookies.get("better-auth.session_token")]. *)
Definition middleware (pathname : string) (sessionCookie : option string) : Decision :=
  if existsb (fun path => startsWith pathname path) publicPaths then Next
  else
    match sessionCookie with
    | None => if startsWith pathname "/dashboard" then Redirect "/auth/sign-in" else Next
    | Some _ => Next
    end.

End Middleware.

(** ** The geo hierarchy tree (a component of the super-admin dashboard) *)

Module GeoTree.

(** A location as the component reads it: id, name, type and the optional
    children. *)
Inductive GeoLocation : Type :=
| Location (id name type_ : string) (children : option (list GeoLocation)).

Definition id_of (node : GeoLocation) : string :=
  match node with Location id _ _ _ => id end.

Definition children_of (node : GeoLocation) : list GeoLocation :=
  match node with
  | Location _ _ _ (Some kids) => kids
  | Location _ _ _ None => []
  end.

(** A [Set<string>]: its members, without repetition, in insertion order. *)
Definition StringSet : Type := list string.

Definition has (s : StringSet) (x : string) : bool := existsb (String.eqb x) s.

Definition delete (s : StringSet) (x : string) : StringSet :=
  filter (fun y => negb (String.eqb x y)) s.

Definition add (s : StringSet) (x : string) : StringSet :=
  if has s x then s else s ++ [x].

Definition initially_expanded : StringSet := ["australia"; "nsw"; "sydney"].

(** [toggleExpanded(id)], lines 22-32, as the update of the state. *)
Definition toggleExpanded (id : string) (prev : StringSet) : StringSet :=
  if has prev id then delete prev id else add prev id.

(** One icon of a row: its glyph and whether it is drawn with opacity 0. *)
Record Icon : Type := { glyph : string; invisible : bool }.

(** What [renderNode] returns: the row of the node and, when the node has
    children and is expanded, the container with its children's rows. *)
Inductive Rendered : Type :=
| Row (key : string) (selected : bool) (icons : list Icon) (label : string)
      (level : nat) (nested : option (list Rendered)).

(** [node.children && node.children.length > 0] *)
Definition hasChildren (node : GeoLocation) : bool :=
  match children_of node with [] => false | _ => true end.

(** [renderNode(node, level)], lines 34-91. *)
Fixpoint renderNode (expanded : StringSet) (selectedId : option string)
    (level : nat) (node : GeoLocation) {struct node} : Rendered :=
  match node with
  | Location id name type_ children =>
      let hasChildren := match children with
                         | Some (_ :: _) => true
                         | _ => false
                         end in
      let isExpanded := has expanded id in
      let isSelected := match selectedId with
                        | Some s => String.eqb s id
                        | None => false
                        end in
      let isPostcode := String.eqb type_ "postcode" in
      Row id isSelected
          ((if hasChildren
            then [{| glyph := if isExpanded then "expand_more" else "chevron_right";
                     invisible := false |}]
            else []) ++
           (if negb hasChildren && isPostcode
            then [{| glyph := "location_on"; invisible := false |}] else []) ++
           (if negb hasChildren && negb isPostcode
            then [{| glyph := "location_on"; invisible := true |}] else []) ++
           (if String.eqb type_ "country"
            then [{| glyph := "public"; invisible := false |}] else []))
          name level
          (match children with
           | Some kids =>
               if hasChildren && isExpanded
               then Some (map (renderNode expanded selectedId (S level)) kids)
               else None
           | None => None
           end)
  end.

(** The component's body: one rendered tree per top-level location. *)
Definition render (expanded : StringSet) (selectedId : option string)
    (data : list GeoLocation) : list Rendered :=
  map (renderNode expanded selectedId 0) data.

(** What a click on a row does, lines 49-54: toggle when the node has
    children, and always report the selection. *)
Definition click (node : GeoLocation) (expanded : StringSet) : StringSet * GeoLocation :=
  (if hasChildren node then toggleExpanded (id_of node) expanded else expanded, node).

(** The keys of the rows on screen, top to bottom. *)
Fixpoint rows (r : Rendered) : list string :=
  match r with
  | Row key _ _ _ _ nested =>
      key :: match nested with
             | Some rs => flat_map rows rs
             | None => []
             end
  end.

(** The ids of a location and everything below it, parent first. *)
Fixpoint ids (node : GeoLocation) : list string :=
  match node with
  | Location id _ _ children =>
      id :: match children with
            | Some kids => flat_map ids kids
            | None => []
            end
  end.

(** The keys of all rows on screen, top to bottom. *)
Definition on_screen (expanded : StringSet) (selectedId : option string)
    (data : list GeoLocation) : list string :=
  flat_map rows (render expanded selectedId data).

End GeoTree.

(** ** More sample inputs *)

Module MoreSamples.

(** A key with white space around it, and an empty model name. *)
Definition padded_key_env : ChatRoute.Env :=
  {| ChatRoute.OPENROUTER_API_KEY := Some "  sk-or-v1-0123456789abcdef  ";
     ChatRoute.OPENROUTER_MODEL := Some "" |}.

(** A products-tool input that asks for one category. *)
Definition with_category (c : string) : JsValue := JObj [("category", JStr c)].

End MoreSamples.

(** ** Sample inputs *)

Module Samples.
Import ChatRoute.

Definition text_part (t : string) : JsValue :=
  JObj [("type", JStr "text"); ("text", JStr t)].

Definition user_message (t : string) : JsValue :=
  JObj [("id", JStr "m1"); ("role", JStr "user"); ("parts", JArr [text_part t])].

Definition request_of (messages : list JsValue) : JsValue :=
  JObj [("messages", JArr messages)].

(** One short user message. *)
Definition hello_body : JsValue := request_of [user_message "hello"].

(** One short message whose role is not one of the three the schema allows. *)
Definition tool_role_body : JsValue :=
  request_of [JObj [("role", JStr "tool"); ("parts", JArr [text_part "hi"])]].

Definition letters (n : N) : string :=
  string_of_list_ascii (repeat "x"%char (N.to_nat n)).

(** One message whose only part carries 10,001 characters. *)
Definition long_part_body : JsValue := request_of [user_message (letters 10001)].

(** One message with a string-valued content of 10,001 characters. *)
Definition long_content_body : JsValue :=
  request_of [JObj [("role", JStr "user"); ("content", JStr (letters 10001))]].

(** 101 short messages. *)
Definition crowded_body : JsValue :=
  request_of (repeat (user_message "hello") 101).

(** A stand-in for [convertToModelMessages]: like the function of the ai
    package it reads the [parts] of every message, and it throws a TypeError
    when a message has none. *)
Definition has_parts (m : JsValue) : bool :=
  match field "parts" m with JArr _ => true | _ => false end.

Definition model_message (m : JsValue) : JsValue :=
  JObj [("role", field "role" m); ("content", field "parts" m)].

Definition parts_missing : Thrown :=
  ThrownObject {| instanceofError := true;
                  statusCode := None;
                  responseBody := None;
                  message := "Cannot read properties of undefined (reading 'map')" |}.

Definition convert_parts (messages : JsValue) : Conversion :=
  match messages with
  | JArr ms =>
      if forallb has_parts ms then Converted (JArr (map model_message ms))
      else ConversionThrows parts_missing
  | _ => ConversionThrows parts_missing
  end.

(** One short message that has a [content] and no [parts]. *)
Definition content_only_body : JsValue :=
  request_of [JObj [("role", JStr "user"); ("content", JStr "hello")]].

Definition signed_in (body : JsValue) : Request :=
  {| session := Some "user-1"; json_body := Some body |}.

Definition anonymous (body : option JsValue) : Request :=
  {| session := None; json_body := body |}.

Definition good_env : Env :=
  {| OPENROUTER_API_KEY := Some "sk-or-v1-0123456789abcdef"; OPENROUTER_MODEL := None |}.

Definition no_key_env : Env :=
  {| OPENROUTER_API_KEY := None; OPENROUTER_MODEL := None |}.

Definition placeholder_key_env : Env :=
  {| OPENROUTER_API_KEY := Some "sk-or-v1-your-key-here"; OPENROUTER_MODEL := None |}.

(** An upstream failure whose message is the upstream body, as the provider
    reports a plain-text 503. *)
Definition service_unavailable : Thrown :=
  ThrownObject {| instanceofError := true;
                  statusCode := Some 503%Z;
                  responseBody := Some "Service Unavailable";
                  message := "Service Unavailable" |}.

Definition rejected_credentials : Thrown :=
  ThrownObject {| instanceofError := true;
                  statusCode := Some 401%Z;
                  responseBody := Some "upstream says no";
                  message := "Unauthorized" |}.

(** A store with one business, "Coastal Bites", its twin, one product and one
    offer of 20% off. *)
Definition coastal_bites : TwinChat.Card :=
  {| TwinChat.card_id := "card-1";
     TwinChat.businessName := "Coastal Bites";
     TwinChat.industryType := "restaurant";
     TwinChat.card_description := "Seafood by the beach";
     TwinChat.address := JNull |}.

Definition coastal_store : TwinChat.Store :=
  {| TwinChat.cards := [coastal_bites];
     TwinChat.cardDigitalTwins :=
       [ {| TwinChat.twin_cardId := "card-1"; TwinChat.personalityTraits := JNull |} ];
     TwinChat.products :=
       [ {| TwinChat.product_cardId := "card-1";
            TwinChat.product_name := "Fish and chips";
            TwinChat.price := "18.50";
            TwinChat.product_description := "Catch of the day";
            TwinChat.category := Some "Mains" |} ];
     TwinChat.promotions :=
       [ {| TwinChat.promotion_cardId := "card-1";
            TwinChat.promotionType := "percentage";
            TwinChat.discountValue := "20";
            TwinChat.conditions := JNull;
            TwinChat.endDate := JNull |} ] |}.

Definition what_deals : JsValue := JArr [user_message "what deals do you have?"].

(** The facts of Coastal Bites, as the handler loads them. *)
Definition coastal_context : TwinChat.ContextBundle :=
  {| TwinChat.card := Some coastal_bites;
     TwinChat.twin := None;
     TwinChat.businessProducts := TwinChat.products coastal_store;
     TwinChat.activeOffers := TwinChat.promotions coastal_store |}.

Definition one_question : Orchestrator.History :=
  [ {| Orchestrator.role := Orchestrator.User;
       Orchestrator.parts := [Orchestrator.TextPart "what deals do you have?"] |} ].

(** A provider that asks for the offers tool on every request. *)
Definition insistent_provider : Orchestrator.Provider :=
  fun _ => Orchestrator.Responding [Orchestrator.ToolCallChunk "getOffers" (JObj []) ""].

(** A booking request whose date is a number where text is required. *)
Definition numeric_date_input : JsValue :=
  JObj [ ("date", JNum 5); ("time", JStr "noon");
         ("service", JStr "lunch"); ("name", JStr "Ada") ].

(** A provider that first asks for a booking with that input and, once the
    history has grown, answers in text. *)
Definition clumsy_provider : Orchestrator.Provider :=
  fun history =>
    match history with
    | [_] => Orchestrator.Responding
               [ Orchestrator.TextChunk "Let me book that. ";
                 Orchestrator.ToolCallChunk "bookAppointment" numeric_date_input "" ]
    | _ => Orchestrator.Responding [Orchestrator.TextChunk "Which date would you like?"]
    end.

(** Generated offers: a complete one, one without its title, one whose
    discount is text. *)
Definition complete_offer : JsValue :=
  JObj [ ("title", JStr "Summer special"); ("description", JStr "Fresh fish, less cash");
         ("discount", JNum 20); ("socialCaption", JStr "Dive in");
         ("seoKeywords", JArr [JStr "seafood"; JStr "beach"; JStr "deal"]);
         ("urgencyText", JStr "Today only!"); ("internal", JStr "dropped") ].

Definition untitled_offer : JsValue :=
  JObj [ ("description", JStr "Fresh fish, less cash");
         ("discount", JNum 20); ("socialCaption", JStr "Dive in");
         ("seoKeywords", JArr [JStr "seafood"]);
         ("urgencyText", JStr "Today only!") ].

Definition text_discount_offer : JsValue :=
  JObj [ ("title", JStr "Summer special"); ("description", JStr "Fresh fish, less cash");
         ("discount", JStr "20"); ("socialCaption", JStr "Dive in");
         ("seoKeywords", JArr [JStr "seafood"]);
         ("urgencyText", JStr "Today only!") ].

Definition offer_request : JsValue := JObj [("businessName", JStr "Coastal Bites")].

End Samples.

(** * Properties *)

Import Zod.

(** ** Shared facts *)

Lemma forallb_andb {A} (f g : A -> bool) (l : list A) :
  forallb (fun x => f x && g x) l = forallb f l && forallb g l.
Proof.
  induction l as [|x l IH]; simpl; [reflexivity|].
  rewrite IH. destruct (f x), (g x), (forallb f l); reflexivity.
Qed.

Lemma forallb_ext_eq {A} (f g : A -> bool) (l : list A) :
  (forall x, f x = g x) -> forallb f l = forallb g l.
Proof.
  intros H. induction l as [|x l IH]; simpl; [reflexivity|].
  now rewrite H, IH.
Qed.

Section ChatRouteFacts.
Import ChatRoute.

(** A part passes [messagePartSchema] exactly when it has the shape of a part
    and its text, if any, is within 10,000 characters. *)
Lemma part_accepts_split (p : JsValue) :
  accepts messagePartSchema p =
  accepts (unbounded messagePartSchema) p && part_within_bound p.
Proof.
  destruct p as [| | | | |?|pf]; try reflexivity.
  unfold part_within_bound, part_text. simpl.
  destruct (lookup "type" pf); simpl; try reflexivity.
  destruct (lookup "text" pf); simpl; try reflexivity.
  now rewrite !andb_true_r.
Qed.

Lemma parts_accepts_split (ps : list JsValue) :
  forallb (accepts messagePartSchema) ps =
  forallb (accepts (unbounded messagePartSchema)) ps && forallb part_within_bound ps.
Proof.
  rewrite <- forallb_andb. apply forallb_ext_eq, part_accepts_split.
Qed.

(** The same for a message: shape, and every part within the bound. *)
Lemma message_accepts_split (m : JsValue) :
  accepts messageSchema m =
  accepts (unbounded messageSchema) m && forallb part_within_bound (parts_of m).
Proof.
  destruct m as [| | | | |?|mf]; try reflexivity.
  unfold parts_of. cbn [field]. rewrite forallb_app.
  change (accepts messageSchema (JObj mf)) with
    (accepts (z_optional (z_string None)) (lookup "id" mf) &&
     (accepts (z_enum ["user"; "assistant"; "system"]) (lookup "role" mf) &&
      (accepts (z_optional (z_array messagePartSchema None)) (lookup "parts" mf) &&
       (accepts (z_optional (z_union [z_string None; z_array messagePartSchema None]))
          (lookup "content" mf) && true)))).
  change (accepts (unbounded messageSchema) (JObj mf)) with
    (accepts (z_optional (z_string None)) (lookup "id" mf) &&
     (accepts (z_enum ["user"; "assistant"; "system"]) (lookup "role" mf) &&
      (accepts (z_optional (z_array (unbounded messagePartSchema) None)) (lookup "parts" mf) &&
       (accepts (z_optional (z_union [z_string None; z_array (unbounded messagePartSchema) None]))
          (lookup "content" mf) && true)))).
  set (a := accepts _ (lookup "id" mf)).
  set (b := accepts _ (lookup "role" mf)).
  assert (Hparts :
    accepts (z_optional (z_array messagePartSchema None)) (lookup "parts" mf) =
    accepts (z_optional (z_array (unbounded messagePartSchema) None)) (lookup "parts" mf) &&
    forallb part_within_bound (array_items (lookup "parts" mf))).
  { destruct (lookup "parts" mf) as [| | | | |ps|?]; try reflexivity.
    cbn [accepts array_items within]. rewrite parts_accepts_split.
    now rewrite !andb_true_r. }
  assert (Hcontent :
    accepts (z_optional (z_union [z_string None; z_array messagePartSchema None]))
      (lookup "content" mf) =
    accepts (z_optional (z_union [z_string None; z_array (unbounded messagePartSchema) None]))
      (lookup "content" mf) &&
    forallb part_within_bound (array_items (lookup "content" mf))).
  { destruct (lookup "content" mf) as [| | | | |ps|?]; try reflexivity.
    cbn [accepts array_items within]. rewrite parts_accepts_split.
    cbn [orb]. now rewrite !andb_true_r, !orb_false_r. }
  rewrite Hparts, Hcontent.
  destruct a, b; cbn [andb]; try reflexivity.
  repeat match goal with |- context [accepts ?s ?v] =>
    let x := fresh "x" in set (x := accepts s v) end.
  repeat match goal with |- context [forallb ?f ?l] =>
    let y := fresh "y" in set (y := forallb f l) end.
  repeat match goal with x : bool |- _ => destruct x end; reflexivity.
Qed.

(** The request schema accepts a body exactly when the body has the shape the
    schema asks for and respects both bounds. *)
Lemma chatRequestSchema_accepts (body : JsValue) :
  accepts chatRequestSchema body =
  well_shaped body && count_within_bound body && texts_within_bound body.
Proof.
  unfold well_shaped, count_within_bound, texts_within_bound, message_count, messages_of.
  destruct body as [| | | | |?|fields]; try reflexivity.
  cbn [field].
  change (accepts chatRequestSchema (JObj fields)) with
    (accepts (z_array messageSchema (Some (100%Z, "Too many messages")))
       (lookup "messages" fields) && true).
  change (accepts (unbounded chatRequestSchema) (JObj fields)) with
    (accepts (z_array (unbounded messageSchema) None) (lookup "messages" fields) && true).
  destruct (lookup "messages" fields) as [| | | | |ms|?]; try reflexivity.
  cbn [accepts within].
  rewrite (forallb_ext_eq _ _ ms message_accepts_split), forallb_andb.
  rewrite !andb_true_r.
  destruct (forallb (accepts (unbounded messageSchema)) ms),
           (Z.of_nat (length ms) <=? 100)%Z,
           (forallb (fun m => forallb part_within_bound (parts_of m)) ms); reflexivity.
Qed.

End ChatRouteFacts.

(** ** The chat endpoint *)

Section ChatRouteClaims.
Import ChatRoute Samples.

Local Opaque accepts data trim startsWith includes.

Ltac step_POST :=
  unfold POST, safeParse, invalid_request, passes_validation, calls_provider,
         actions_of, response_of, bind, perform, ret;
  cbn [session json_body fst snd].

Lemma POST_rejects convert env user body :
  accepts chatRequestSchema body = false ->
  POST convert env {| session := Some user; json_body := Some body |} = invalid_request body.
Proof. intros H. step_POST. rewrite H. reflexivity. Qed.

Lemma POST_never_streams_rejected convert env sess body :
  accepts chatRequestSchema body = false ->
  calls_provider (POST convert env {| session := sess; json_body := Some body |}) = false.
Proof.
  intros H. destruct sess as [user|]; [|reflexivity].
  rewrite (POST_rejects convert env user body H). reflexivity.
Qed.

(** A signed-in request with an accepted body: what is left of the handler
    is the key checks, the conversion and the provider call. *)
Lemma POST_on_valid_body convert env user body :
  accepts chatRequestSchema body = true ->
  POST convert env {| session := Some user; json_body := Some body |} =
  match option_map trim (OPENROUTER_API_KEY env) with
  | None => (JsonResponse 500 (ErrorBody key_not_configured), checked_key)
  | Some apiKey =>
      if is_empty apiKey then
        (JsonResponse 500 (ErrorBody key_not_configured), checked_key)
      else if negb (startsWith apiKey "sk-or-v1-") || includes apiKey "your-key" then
        (JsonResponse 500 (ErrorBody key_invalid), checked_key)
      else
        match convert (parsed_messages body) with
        | ConversionThrows error => (Uncaught error, checked_key)
        | Converted modelMessages =>
            let call := {| call_apiKey := apiKey;
                           call_model := model_id env;
                           call_messages := modelMessages |} in
            (UIMessageStreamResponse call getOpenRouterFriendlyError,
             checked_key ++ [StreamText call])
        end
  end.
Proof.
  intros H. step_POST. rewrite H. unfold parsed_messages.
  destruct (option_map trim (OPENROUTER_API_KEY env)) as [apiKey|]; [|reflexivity].
  destruct (is_empty apiKey); [reflexivity|].
  destruct (negb (startsWith apiKey "sk-or-v1-") || includes apiKey "your-key");
    [reflexivity|].
  destruct (convert (field "messages" (data chatRequestSchema body))); reflexivity.
Qed.

Lemma POST_validated convert env user body :
  accepts chatRequestSchema body = true ->
  passes_validation (POST convert env {| session := Some user; json_body := Some body |})
  = true.
Proof.
  intros H. rewrite (POST_on_valid_body convert env user body H).
  destruct (option_map trim (OPENROUTER_API_KEY env)) as [apiKey|]; [|reflexivity].
  destruct (is_empty apiKey); [reflexivity|].
  destruct (negb (startsWith apiKey "sk-or-v1-") || includes apiKey "your-key");
    [reflexivity|].
  destruct (convert (parsed_messages body)); reflexivity.
Qed.

(** C10: without a session the handler answers 401 with the body
    [{"error":"Unauthorized"}] and has done nothing but look for the session
    (the body is not read, nothing is validated, the provider is not called);
    with a session and a body that is not JSON it answers 400 after reading
    the body and nothing more. *)
Theorem POST_requires_session : forall convert env body user,
  POST convert env {| session := None; json_body := body |} =
    (JsonResponse 401 (ErrorBody "Unauthorized"), [GetSession])
  /\
  POST convert env {| session := Some user; json_body := None |} =
    (JsonResponse 400 (ErrorBody "Invalid JSON"), [GetSession; ReadJsonBody]).
Proof. intros. split; reflexivity. Qed.

(** C3 (amended): the schema accepts a body exactly when the body is within
    both bounds (at most 100 messages; every part of [parts] or of an
    array-valued [content] has a text of at most 10,000 characters) and has
    the shape the schema asks for.  A request outside a bound never reaches
    the provider, and a signed-in request gets the 400 "Invalid request"
    answer exactly when its body is not accepted; otherwise the handler goes
    on past validation. *)
Theorem chat_request_bounds : forall convert env sess user body,
  accepts chatRequestSchema body =
    well_shaped body && count_within_bound body && texts_within_bound body
  /\
  (count_within_bound body && texts_within_bound body)
    || negb (calls_provider
               (POST convert env {| session := sess; json_body := Some body |})) = true
  /\
  (if well_shaped body && count_within_bound body && texts_within_bound body
   then passes_validation
          (POST convert env {| session := Some user; json_body := Some body |}) = true
   else POST convert env {| session := Some user; json_body := Some body |}
        = invalid_request body).
Proof.
  intros convert env sess user body.
  pose proof (chatRequestSchema_accepts body) as Hacc.
  split; [exact Hacc|]. split.
  - destruct (count_within_bound body && texts_within_bound body) eqn:Hb; [reflexivity|].
    rewrite POST_never_streams_rejected; [reflexivity|].
    rewrite Hacc, <- andb_assoc, Hb. apply andb_false_r.
  - rewrite <- Hacc. destruct (accepts chatRequestSchema body) eqn:Ha.
    + apply (POST_validated convert env user body Ha).
    + apply POST_rejects, Ha.
Qed.

(** C3, as stated, fails: a body with one short message is within both
    bounds, yet the schema rejects it (its role is not user, assistant or
    system) and the handler answers 400. *)
Lemma within_bounds_yet_rejected :
  count_within_bound tool_role_body = true /\
  texts_within_bound tool_role_body = true /\
  safeParse chatRequestSchema tool_role_body = None /\
  POST convert_parts good_env (signed_in tool_role_body) = invalid_request tool_role_body.
Proof. vm_compute. repeat split; reflexivity. Qed.

(** The two bounds at work, and what they do not cover. *)
Example long_part_rejected :
  POST convert_parts good_env (signed_in long_part_body) = invalid_request long_part_body.
Proof. apply POST_rejects. vm_compute. reflexivity. Qed.

Example crowded_rejected :
  POST convert_parts good_env (signed_in crowded_body) = invalid_request crowded_body.
Proof. apply POST_rejects. vm_compute. reflexivity. Qed.

Example hello_streams :
  calls_provider (POST convert_parts good_env (signed_in hello_body)) = true.
Proof. vm_compute. reflexivity. Qed.

(** A string-valued [content] is not a part: its length is not checked, and
    the body passes validation whatever the conversion then makes of it. *)
Example long_content_passes_validation :
  texts_within_bound long_content_body = true /\
  accepts chatRequestSchema long_content_body = true /\
  forall convert,
    passes_validation (POST convert good_env (signed_in long_content_body)) = true.
Proof.
  assert (H : accepts chatRequestSchema long_content_body = true)
    by (vm_compute; reflexivity).
  split; [vm_compute; reflexivity|]. split; [exact H|].
  intros convert. apply POST_validated, H.
Qed.

(** An accepted message without [parts], and a conversion that needs them:
    the handler throws after the key checks and the provider is not called. *)
Example content_only_throws :
  accepts chatRequestSchema content_only_body = true /\
  POST convert_parts good_env (signed_in content_only_body) =
    (Uncaught parts_missing, checked_key).
Proof. vm_compute. split; reflexivity. Qed.

(** C6 (amended): the credential is checked on every request that got past
    authentication and validation, by the handler itself.  An absent or
    blank key ends this request with 500 and the not-configured message; a
    key without the "sk-or-v1-" prefix or with "your-key" in it ends it with
    500 and the invalid-key message; in both cases the key was read and
    nothing more was done.  With a key that passes, the handler converts the
    messages: if that returns, the provider is called with the trimmed key
    and the converted messages; if that throws, the handler throws and the
    provider is not called.  So the provider is called exactly when the key
    is usable and the conversion returns. *)
Theorem credential_checked_per_request : forall convert env user body,
  accepts chatRequestSchema body = true ->
  let raw := OPENROUTER_API_KEY env in
  let run := POST convert env {| session := Some user; json_body := Some body |} in
  (if key_absent_or_blank raw then
     run = (JsonResponse 500 (ErrorBody key_not_configured), checked_key)
   else if key_usable raw then
     match convert (parsed_messages body) with
     | Converted modelMessages =>
         exists call,
           option_map trim raw = Some (call_apiKey call) /\
           call_messages call = modelMessages /\
           run = (UIMessageStreamResponse call getOpenRouterFriendlyError,
                  checked_key ++ [StreamText call])
     | ConversionThrows error => run = (Uncaught error, checked_key)
     end
   else
     run = (JsonResponse 500 (ErrorBody key_invalid), checked_key))
  /\
  calls_provider run = key_usable raw && converts (convert (parsed_messages body)).
Proof.
  intros convert env user body H raw run. subst raw run.
  rewrite (POST_on_valid_body convert env user body H).
  unfold key_absent_or_blank, key_usable.
  destruct (OPENROUTER_API_KEY env) as [k|]; cbn [option_map]; [|split; reflexivity].
  destruct (is_empty (trim k)); cbn [negb andb]; [split; reflexivity|].
  destruct (startsWith (trim k) "sk-or-v1-"); cbn [negb orb andb]; [|split; reflexivity].
  destruct (includes (trim k) "your-key"); cbn [negb]; [split; reflexivity|].
  destruct (convert (parsed_messages body)) as [modelMessages|error];
    [|split; reflexivity].
  split; [|reflexivity].
  eexists. split; [|split]. 3: reflexivity. all: reflexivity.
Qed.

Lemma credential_checked_per_request_witness :
  accepts chatRequestSchema hello_body = true /\
  POST convert_parts placeholder_key_env (signed_in hello_body) =
    (JsonResponse 500 (ErrorBody key_invalid), checked_key) /\
  calls_provider (POST convert_parts placeholder_key_env (signed_in hello_body)) = false.
Proof.
  assert (H : accepts chatRequestSchema hello_body = true) by (vm_compute; reflexivity).
  split; [exact H|].
  destruct (credential_checked_per_request convert_parts placeholder_key_env "user-1"
              hello_body H) as [Hr Hc].
  split; [exact Hr | exact Hc].
Defined.

(** C6, as stated, fails: with no key in the environment the handler fails
    this very request with a 500, at request time. *)
Lemma missing_key_fails_request :
  POST convert_parts no_key_env (signed_in hello_body) =
  (JsonResponse 500 (ErrorBody key_not_configured),
   [GetSession; ReadJsonBody; ValidateBody; ReadApiKey]).
Proof. vm_compute. reflexivity. Qed.

End ChatRouteClaims.

(** ** Error messages sent to the client *)

Section FriendlyErrorClaims.
Import ChatRoute Samples.

(** C5 (amended): a rejected credential (status 401, or a response body
    that contains "User not found") always yields the fixed authentication
    message, whatever else the error carries; a 429 that is not such a
    rejection yields the fixed rate-limit message.  Every other error is
    passed on as it is: the [message] of an [Error] instance, the thrown
    string itself (always, as a string has neither status nor body), and
    "Unknown AI error." for anything else.  So the message sent is one of the
    three fixed texts, a [message] or a thrown string; the [responseBody]
    field is only searched for "User not found" and is never what is
    returned. *)
Theorem friendly_error_cases : forall e : Thrown,
  (status_is 401 (thrown_statusCode e)
     || body_mentions_user_not_found (thrown_responseBody e) = true ->
   getOpenRouterFriendlyError e = auth_failed_message)
  /\
  (status_is 401 (thrown_statusCode e)
     || body_mentions_user_not_found (thrown_responseBody e) = false ->
   (status_is 429 (thrown_statusCode e) = true ->
    getOpenRouterFriendlyError e = rate_limit_message) /\
   (status_is 429 (thrown_statusCode e) = false ->
    forall o, e = ThrownObject o ->
      getOpenRouterFriendlyError e =
        if instanceofError o then message o else unknown_error_message))
  /\
  (forall s, e = ThrownString s -> getOpenRouterFriendlyError e = s)
  /\
  (e = ThrownNullish \/ e = ThrownPrimitive ->
   getOpenRouterFriendlyError e = unknown_error_message)
  /\
  (In (getOpenRouterFriendlyError e)
      [auth_failed_message; rate_limit_message; unknown_error_message]
   \/ (exists o, e = ThrownObject o /\ instanceofError o = true /\
                 getOpenRouterFriendlyError e = message o)
   \/ e = ThrownString (getOpenRouterFriendlyError e))
  /\
  (forall o rb,
     e = ThrownObject o ->
     body_mentions_user_not_found rb = body_mentions_user_not_found (responseBody o) ->
     getOpenRouterFriendlyError
       (ThrownObject {| instanceofError := instanceofError o;
                        statusCode := statusCode o;
                        responseBody := rb;
                        message := message o |})
     = getOpenRouterFriendlyError e).
Proof.
  intros e. unfold getOpenRouterFriendlyError.
  split; [|split; [|split; [|split; [|split]]]].
  - intros H. rewrite H. reflexivity.
  - intros H. rewrite H. split.
    + intros H429. rewrite H429. reflexivity.
    + intros H429 o ->. rewrite H429. reflexivity.
  - intros s ->. reflexivity.
  - intros [-> | ->]; reflexivity.
  - destruct (status_is 401 (thrown_statusCode e)
              || body_mentions_user_not_found (thrown_responseBody e));
      [left; simpl; auto|].
    destruct (status_is 429 (thrown_statusCode e)); [left; simpl; auto|].
    destruct e as [|s| |o].
    + left; simpl; auto.
    + right; right. reflexivity.
    + left; simpl; auto.
    + destruct (instanceofError o) eqn:Hi.
      * right; left. exists o. auto.
      * left; simpl; auto.
  - intros o rb -> Hrb. cbn [thrown_statusCode thrown_responseBody statusCode responseBody
                            instanceofError message].
    rewrite Hrb. reflexivity.
Qed.

(** C5, as stated, fails: for an upstream failure whose message is the
    upstream text, the client is sent exactly the upstream response body. *)
Lemma raw_upstream_text_forwarded :
  thrown_responseBody service_unavailable = Some "Service Unavailable" /\
  getOpenRouterFriendlyError service_unavailable = "Service Unavailable" /\
  getOpenRouterFriendlyError (ThrownString "Service Unavailable") = "Service Unavailable".
Proof. vm_compute. repeat split; reflexivity. Qed.

Example rejected_credentials_curated :
  getOpenRouterFriendlyError rejected_credentials = auth_failed_message.
Proof. reflexivity. Qed.

End FriendlyErrorClaims.

(** ** The twin-chat handler: loading the context *)

Section TwinChatClaims.
Import TwinChat Samples.

Variable JSON_stringify : JsValue -> string.
Variable convertToModelMessages : JsValue -> ChatRoute.Conversion.

Lemma preserves_ret {A} (a : A) : preserves_store (ret a).
Proof. intros w. reflexivity. Qed.

Lemma preserves_throw {A} (e : JsException) : preserves_store (@throw A e).
Proof. intros w. reflexivity. Qed.

Lemma preserves_bind {A B} (m : IO A) (k : A -> IO B) :
  preserves_store m -> (forall a, preserves_store (k a)) -> preserves_store (bind m k).
Proof.
  intros Hm Hk w. unfold bind. specialize (Hm w).
  destruct (m w) as [[a|e] w']; simpl in *.
  - rewrite Hk. exact Hm.
  - exact Hm.
Qed.

Lemma preserves_select {Row} t (rows : Store -> list Row) p :
  preserves_store (select t rows p).
Proof. intros w. reflexivity. Qed.

Lemma preserves_limit1 {Row} (q : IO (list Row)) :
  preserves_store q -> preserves_store (limit1 q).
Proof.
  intros Hq w. unfold limit1. specialize (Hq w).
  destruct (q w) as [r w']. exact Hq.
Qed.

Lemma preserves_streamText system messages : preserves_store (streamText system messages).
Proof. intros w. reflexivity. Qed.

Lemma preserves_read {Row A} name (get : Row -> A) r : preserves_store (read name get r).
Proof. destruct r; [apply preserves_ret | apply preserves_throw]. Qed.

Lemma preserves_converted result : preserves_store (converted result).
Proof. destruct result; [apply preserves_ret | apply preserves_throw]. Qed.

Create HintDb frame.

#[local] Hint Resolve preserves_ret preserves_throw preserves_select preserves_limit1
  preserves_streamText preserves_read preserves_converted : frame.

Ltac frame := repeat (apply preserves_bind; [|intro]); auto with frame.

Lemma load_context_preserves cardId : preserves_store (load_context cardId).
Proof. unfold load_context. frame. Qed.

Lemma systemPrompt_preserves ctx : preserves_store (systemPrompt JSON_stringify ctx).
Proof. unfold systemPrompt. frame. Qed.

(** C9: loading the context, and the whole handler around it, leave the
    persisted cards, twins, products and promotions exactly as they were,
    whether the handler answers or throws; and the only accesses to the store
    are four selects. *)
Theorem context_loading_is_read_only : forall cardId messages w,
  store (snd (load_context cardId w)) = store w
  /\ store (snd (POST JSON_stringify convertToModelMessages cardId messages w)) = store w
  /\ effects (snd (load_context cardId w)) =
       effects w ++ [Select CardsT; Select CardDigitalTwinsT;
                     Select ProductsT; Select PromotionsT].
Proof.
  intros cardId messages w. split; [apply load_context_preserves|]. split.
  - revert w.
    change (preserves_store (POST JSON_stringify convertToModelMessages cardId messages)).
    unfold POST. apply preserves_bind; [apply load_context_preserves|intro].
    apply preserves_bind; [apply systemPrompt_preserves|intro]. frame.
  - unfold load_context, bind, limit1, select, ret, record_effect. simpl.
    rewrite <- !app_assoc. reflexivity.
Qed.

Lemma filter_no_card (s : Store) cardId :
  has_card s cardId = false ->
  filter (fun c => String.eqb (card_id c) cardId) (cards s) = [].
Proof.
  unfold has_card. induction (cards s) as [|c l IH]; simpl; [reflexivity|].
  destruct (String.eqb (card_id c) cardId); simpl; [discriminate|exact IH].
Qed.

(** For a card id with no row in [cards], loading the context still returns
    a bundle (without a card), and the handler then throws a TypeError while
    it builds the prompt; the provider is not called. *)
Lemma missing_card_behaviour (s : Store) cardId messages :
  has_card s cardId = false ->
  (exists ctx, outcome_of (load_context cardId) s = Return ctx /\ card ctx = None) /\
  outcome_of (POST JSON_stringify convertToModelMessages cardId messages) s =
    Throw (TypeError "businessName") /\
  effects_of (POST JSON_stringify convertToModelMessages cardId messages) s =
    [Select CardsT; Select CardDigitalTwinsT; Select ProductsT; Select PromotionsT].
Proof.
  intros H. pose proof (filter_no_card s cardId H) as Hf.
  unfold outcome_of, effects_of, TwinChat.POST, load_context, bind, limit1, select, ret,
    record_effect, initial. simpl. rewrite Hf. simpl.
  split; [eexists; split; reflexivity|]. split; reflexivity.
Qed.

(** C4 at a card id that has no record: the four selects run, the bundle has
    no card, and the handler ends with TypeError (reading 'businessName'),
    not with a not-found failure. *)
Theorem missing_card_throws_TypeError :
  forall messages,
  POST JSON_stringify convertToModelMessages "no-such-card" messages (initial coastal_store) =
  (Throw (TypeError "businessName"),
   {| store := coastal_store;
      effects := [Select CardsT; Select CardDigitalTwinsT;
                  Select ProductsT; Select PromotionsT] |}).
Proof. intros. reflexivity. Qed.

(** For a card id that has a row, the handler loads a bundle that holds the
    first such card, its products and its offers, and builds the prompt;
    then, if the conversion of the messages returns, it calls the provider
    after the four selects and answers with the stream, and if the
    conversion throws, the handler throws that error and the provider is not
    called. *)
Lemma existing_card_behaviour (s : Store) cardId messages :
  has_card s cardId = true ->
  exists c system,
    first_of (firstn 1 (filter (fun c => String.eqb (card_id c) cardId) (cards s))) = Some c /\
    In c (cards s) /\ card_id c = cardId /\
    let ctx := {| card := Some c;
                  twin := first_of (firstn 1 (filter (fun t => String.eqb (twin_cardId t) cardId)
                                                (cardDigitalTwins s)));
                  businessProducts := filter (fun p => String.eqb (product_cardId p) cardId)
                                        (products s);
                  activeOffers := filter (fun o => String.eqb (promotion_cardId o) cardId)
                                    (promotions s) |} in
    POST JSON_stringify convertToModelMessages cardId messages (initial s) =
    match convertToModelMessages messages with
    | ChatRoute.Converted modelMessages =>
        (Return (UIMessageStreamResponse ctx system),
         {| store := s;
            effects := [Select CardsT; Select CardDigitalTwinsT; Select ProductsT;
                        Select PromotionsT; StreamText system modelMessages] |})
    | ChatRoute.ConversionThrows error =>
        (Throw (SdkError error),
         {| store := s;
            effects := [Select CardsT; Select CardDigitalTwinsT; Select ProductsT;
                        Select PromotionsT] |})
    end.
Proof.
  intros H. unfold has_card in H.
  destruct (filter (fun c => String.eqb (card_id c) cardId) (cards s)) as [|c l] eqn:Hf.
  - exfalso. apply existsb_exists in H. destruct H as [c [Hin Hc]].
    assert (Hin' : In c (filter (fun c => String.eqb (card_id c) cardId) (cards s)))
      by (apply filter_In; auto).
    rewrite Hf in Hin'. exact Hin'.
  - assert (Hc : In c (filter (fun c => String.eqb (card_id c) cardId) (cards s)))
      by (rewrite Hf; left; reflexivity).
    apply filter_In in Hc. destruct Hc as [Hin Hid]. apply String.eqb_eq in Hid.
    exists c. eexists. split; [reflexivity|]. split; [exact Hin|]. split; [exact Hid|].
    unfold POST, load_context, converted, bind, limit1, select, ret, throw,
      record_effect, initial.
    simpl. rewrite Hf. simpl.
    destruct (convertToModelMessages messages); reflexivity.
Qed.

Example coastal_bites_turn :
  exists ctx system,
    card ctx = Some coastal_bites /\ activeOffers ctx = promotions coastal_store /\
    forall modelMessages,
      convertToModelMessages what_deals = ChatRoute.Converted modelMessages ->
      POST JSON_stringify convertToModelMessages "card-1" what_deals
        (initial coastal_store) =
      (Return (UIMessageStreamResponse ctx system),
       {| store := coastal_store;
          effects := [Select CardsT; Select CardDigitalTwinsT; Select ProductsT;
                      Select PromotionsT; StreamText system modelMessages] |}).
Proof.
  do 2 eexists. split; [|split].
  3: { intros modelMessages E.
       unfold POST, load_context, converted, bind, limit1, select, ret, throw,
         record_effect, initial.
       simpl. rewrite E. reflexivity. }
  all: reflexivity.
Qed.

End TwinChatClaims.

(** ** Structured output: generate-offer *)

Section GenerateOfferClaims.
Import GenerateOffer.

Lemma accepts_string_is_string v : accepts (z_string None) v = is_string v.
Proof. destruct v; reflexivity. Qed.

Lemma accepts_number_is_number v : accepts z_number v = is_number v.
Proof. destruct v; reflexivity. Qed.

Lemma accepts_string_array v :
  accepts (z_array (z_string None) None) v = is_string_array v.
Proof.
  destruct v as [| | | | |items|?]; try reflexivity.
  cbn [accepts within is_string_array]. rewrite andb_true_r.
  apply forallb_ext_eq, accepts_string_is_string.
Qed.

Lemma accepts_optional_string v :
  accepts (z_optional (z_string None)) v = true <->
  v = JUndefined \/ is_string v = true.
Proof.
  destruct v; cbn; split; intros H; auto; try discriminate;
    destruct H as [H|H]; discriminate.
Qed.

Lemma offerSchema_accepts_fields fields :
  accepts offerSchema (JObj fields) =
  is_string (lookup "title" fields) &&
  (is_string (lookup "description" fields) &&
   (is_number (lookup "discount" fields) &&
    (accepts (z_optional (z_string None)) (lookup "conditions" fields) &&
     (is_string (lookup "socialCaption" fields) &&
      (is_string_array (lookup "seoKeywords" fields) &&
       (is_string (lookup "urgencyText" fields) && true)))))).
Proof.
  rewrite <- !accepts_string_is_string, <- accepts_number_is_number,
    <- accepts_string_array. reflexivity.
Qed.

(** The schema accepts an object exactly when every declared field is
    present with its declared type. *)
Lemma offerSchema_accepts_iff object :
  accepts offerSchema object = true <-> conforms object.
Proof.
  split.
  - intros H. destruct object as [| | | | |?|fields]; try discriminate.
    rewrite offerSchema_accepts_fields in H.
    repeat (apply andb_prop in H; destruct H as [? H]).
    exists fields. split; [reflexivity|].
    repeat split; try assumption.
    now apply accepts_optional_string.
  - intros [fields [-> [H1 [H2 [H3 [H4 [H5 [H6 H7]]]]]]]].
    rewrite offerSchema_accepts_fields, H1, H2, H3, H5, H6, H7.
    apply accepts_optional_string in H4. rewrite H4. reflexivity.
Qed.

Lemma map_data_string items : map (data (z_string None)) items = items.
Proof.
  induction items as [|x l IH]; cbn [map]; [reflexivity|].
  rewrite IH. reflexivity.
Qed.

(** What the handler returns for an accepted object conforms as well: the
    declared fields are copied, the undeclared ones dropped. *)
Lemma offerSchema_data_fields fields :
  data offerSchema (JObj fields) =
  JObj (present "title" (lookup "title" fields) ++
        present "description" (lookup "description" fields) ++
        present "discount" (lookup "discount" fields) ++
        present "conditions" (data (z_optional (z_string None)) (lookup "conditions" fields)) ++
        present "socialCaption" (lookup "socialCaption" fields) ++
        present "seoKeywords"
          (data (z_array (z_string None) None) (lookup "seoKeywords" fields)) ++
        present "urgencyText" (lookup "urgencyText" fields) ++ []).
Proof. reflexivity. Qed.

Lemma offerSchema_data_conforms object :
  conforms object -> conforms (data offerSchema object).
Proof.
  intros [fields [-> [H1 [H2 [H3 [H4 [H5 [H6 H7]]]]]]]].
  rewrite offerSchema_data_fields.
  destruct (lookup "title" fields) eqn:E1; try discriminate.
  destruct (lookup "description" fields) eqn:E2; try discriminate.
  destruct (lookup "discount" fields) eqn:E3; try discriminate.
  destruct (lookup "socialCaption" fields) eqn:E5; try discriminate.
  destruct (lookup "seoKeywords" fields) as [| | | | |kw|?] eqn:E6; try discriminate.
  destruct (lookup "urgencyText" fields) eqn:E7; try discriminate.
  cbn [data]. rewrite map_data_string.
  destruct H4 as [H4|H4].
  - rewrite H4. eexists. split; [reflexivity|]. cbn. repeat split; auto.
  - destruct (lookup "conditions" fields) eqn:E4; try discriminate.
    eexists. split; [reflexivity|]. cbn. repeat split; auto.
Qed.

(** C8: the handler answers 200 only with the parsed data of an object that
    conforms to the whole schema, and that data conforms too; whenever the
    generated object misses a field, has one of the wrong type, or the
    generation itself failed, the answer is an error message with status 400
    or 500 and carries nothing of the object. *)
Theorem structured_output_fails_closed : forall json_body generated,
  (exists object,
     generated = Some object /\ conforms object /\
     POST json_body generated = Json 200 (data offerSchema object) /\
     conforms (data offerSchema object))
  \/
  (exists status msg,
     POST json_body generated = Json status (error_body msg) /\
     (status = 400%Z \/ status = 500%Z)).
Proof.
  intros json_body generated. unfold POST, safeParse.
  destruct json_body as [body|]; [|right; eauto].
  destruct (read_businessName body) as [bn|]; [|right; eauto].
  destruct (truthy bn); cbn [negb]; [|right; eauto].
  destruct generated as [object|]; [|right; eauto].
  destruct (accepts offerSchema object) eqn:Ha; [|right; eauto].
  left. exists object. apply offerSchema_accepts_iff in Ha.
  repeat split; auto using offerSchema_data_conforms.
Qed.

Example complete_offer_returned :
  POST (Some Samples.offer_request) (Some Samples.complete_offer) =
  Json 200 (JObj [ ("title", JStr "Summer special");
                   ("description", JStr "Fresh fish, less cash");
                   ("discount", JNum 20); ("socialCaption", JStr "Dive in");
                   ("seoKeywords", JArr [JStr "seafood"; JStr "beach"; JStr "deal"]);
                   ("urgencyText", JStr "Today only!") ]).
Proof. reflexivity. Qed.

Example incomplete_offers_refused :
  POST (Some Samples.offer_request) (Some Samples.untitled_offer) =
    Json 500 (error_body "Generated content failed validation") /\
  POST (Some Samples.offer_request) (Some Samples.text_discount_offer) =
    Json 500 (error_body "Generated content failed validation").
Proof. split; reflexivity. Qed.

End GenerateOfferClaims.

(** ** The turn orchestrator *)

Section OrchestratorClaims.
Import Orchestrator Samples.

Variable provider : Provider.
Variable registry : Registry.
Variable ctx : TwinChat.ContextBundle.

#[local] Abbreviation requesting := (requesting provider registry ctx).
#[local] Abbreviation streaming := (streaming registry ctx).
#[local] Abbreviation run_turn := (run_turn provider registry ctx).

Lemma events_app a b : events (a ++ b) = events a ++ events b.
Proof.
  induction a as [|x a IH]; [reflexivity|].
  destruct x; simpl; rewrite IH; reflexivity.
Qed.

Lemma provider_calls_app a b : provider_calls (a ++ b) = provider_calls a + provider_calls b.
Proof. unfold provider_calls. now rewrite filter_app, length_app. Qed.

Lemma tool_steps_app a b : tool_steps (a ++ b) = tool_steps a + tool_steps b.
Proof. unfold tool_steps. now rewrite events_app, filter_app, length_app. Qed.

Lemma flush_quiet buffered :
  provider_calls (flush buffered) = 0 /\ tool_steps (flush buffered) = 0 /\
  forallb (fun e => negb (is_terminal e)) (events (flush buffered)) = true.
Proof. unfold flush. destruct (is_empty buffered); repeat split; reflexivity. Qed.

Lemma tool_pending_shape n rawInput :
  provider_calls (snd (tool_pending registry ctx n rawInput)) = 0 /\
  tool_steps (snd (tool_pending registry ctx n rawInput)) = 1 /\
  forallb (fun e => negb (is_terminal e))
    (events (snd (tool_pending registry ctx n rawInput))) = true.
Proof.
  unfold tool_pending. cbn [snd].
  destruct (runs_handler registry n rawInput); repeat split; reflexivity.
Qed.

(** *** Exactly one terminal event, in last place *)

Lemma ends_once_cons e evs :
  is_terminal e = false -> ends_once evs -> ends_once (e :: evs).
Proof.
  intros He [init [t [-> [Ht Hi]]]]. exists (e :: init), t.
  repeat split; auto. simpl. now rewrite He.
Qed.

Lemma ends_once_app pre evs :
  forallb (fun e => negb (is_terminal e)) pre = true ->
  ends_once evs -> ends_once (pre ++ evs).
Proof.
  induction pre as [|e pre IH]; intros Hp H; [exact H|].
  simpl in Hp. apply andb_prop in Hp. destruct Hp as [He Hp].
  simpl. apply ends_once_cons; [now apply negb_true_iff|auto].
Qed.

Lemma ends_once_single t : is_terminal t = true -> ends_once [t].
Proof. intros H. exists [], t. auto. Qed.

Lemma streaming_ends_once resume :
  (forall h a b, ends_once (events (resume h a b))) ->
  forall chunks h a, ends_once (events (streaming resume h a chunks)).
Proof.
  intros Hres. induction chunks as [|c chunks IH]; intros h a.
  - apply ends_once_single. reflexivity.
  - destruct c as [t|n rawInput trailing|].
    + cbn [Orchestrator.streaming events]. apply ends_once_cons; [reflexivity|apply IH].
    + cbn [Orchestrator.streaming].
      destruct (tool_pending registry ctx n rawInput) as [r acts] eqn:Hp.
      rewrite events_app. apply ends_once_app; [|apply Hres].
      pose proof (tool_pending_shape n rawInput) as [_ [_ H]].
      now rewrite Hp in H.
    + apply ends_once_single. reflexivity.
Qed.

Lemma requesting_ends_once remaining :
  forall h a b, ends_once (events (requesting remaining h a b)).
Proof.
  induction remaining as [|k IH]; intros h a b.
  - apply ends_once_single. reflexivity.
  - cbn [Orchestrator.requesting events].
    destruct (provider h) as [code|chunks].
    + apply ends_once_single. reflexivity.
    + rewrite events_app. apply ends_once_app; [apply flush_quiet|].
      apply streaming_ends_once, IH.
Qed.

Lemma ends_once_count evs :
  ends_once evs -> length (filter is_terminal evs) = 1.
Proof.
  intros [init [t [-> [Ht Hi]]]]. rewrite filter_app, length_app. simpl. rewrite Ht.
  assert (H : filter is_terminal init = []).
  { induction init as [|e init IH]; [reflexivity|].
    simpl in Hi. apply andb_prop in Hi. destruct Hi as [He Hi].
    simpl. apply negb_true_iff in He. rewrite He. auto. }
  rewrite H. reflexivity.
Qed.

(** C2: whatever the provider and the tools do, the events of one turn are
    some non-terminal events followed by one terminal event (turn-complete or
    turn-error): there is exactly one terminal event and it comes last. *)
Theorem turn_ends_once : forall max_steps history,
  let evs := events (run_turn max_steps history) in
  ends_once evs /\
  length (filter is_terminal evs) = 1 /\
  (exists t, last evs (TextDelta "") = t /\ is_terminal t = true).
Proof.
  intros max_steps history evs.
  assert (H : ends_once evs) by apply requesting_ends_once.
  split; [exact H|]. split; [now apply ends_once_count|].
  destruct H as [init [t [-> [Ht _]]]]. exists t. split; [apply last_last|exact Ht].
Qed.

(** *** The step bound *)

Lemma streaming_bounded resume k :
  (forall h a b, provider_calls (resume h a b) <= k /\ tool_steps (resume h a b) <= k) ->
  forall chunks h a,
    provider_calls (streaming resume h a chunks) <= k /\
    tool_steps (streaming resume h a chunks) <= S k.
Proof.
  intros Hres. induction chunks as [|c chunks IH]; intros h a.
  - cbn. lia.
  - destruct c as [t|n rawInput trailing|].
    + specialize (IH h (a ++ t)%string). cbn [Orchestrator.streaming].
      change (Emit (TextDelta t) :: ?l) with ([Emit (TextDelta t)] ++ l).
      rewrite provider_calls_app, tool_steps_app. cbn. lia.
    + cbn [Orchestrator.streaming].
      destruct (tool_pending registry ctx n rawInput) as [r acts] eqn:Hp.
      pose proof (tool_pending_shape n rawInput) as [H1 [H2 _]].
      rewrite Hp in H1, H2. cbn [snd] in H1, H2.
      rewrite provider_calls_app, tool_steps_app, H1, H2.
      destruct (Hres (h ++ [tool_message r]) a trailing). lia.
    + cbn. lia.
Qed.

Lemma requesting_bounded remaining :
  forall h a b,
    provider_calls (requesting remaining h a b) <= remaining /\
    tool_steps (requesting remaining h a b) <= remaining.
Proof.
  induction remaining as [|k IH]; intros h a b.
  - cbn. lia.
  - cbn [Orchestrator.requesting].
    change (CallProvider h :: ?l) with ([CallProvider h] ++ l).
    rewrite provider_calls_app, tool_steps_app.
    destruct (provider h) as [code|chunks].
    + cbn. lia.
    + rewrite provider_calls_app, tool_steps_app.
      destruct (flush_quiet b) as [F1 [F2 _]]. rewrite F1, F2.
      destruct (streaming_bounded _ k IH chunks h (a ++ b)%string). cbn. lia.
Qed.

(** A response that asks for a tool hands the turn back to Requesting after
    exactly one tool step and no provider call. *)
Lemma streaming_requests_tool resume texts n rawInput trailing rest :
  forallb is_TextChunk texts = true ->
  forall h a, exists pre h' a',
    streaming resume h a (texts ++ ToolCallChunk n rawInput trailing :: rest) =
      pre ++ resume h' a' trailing /\
    provider_calls pre = 0 /\ tool_steps pre = 1.
Proof.
  induction texts as [|c texts IH]; intros Ht h a.
  - cbn [app Orchestrator.streaming].
    destruct (tool_pending registry ctx n rawInput) as [r acts] eqn:Hp.
    pose proof (tool_pending_shape n rawInput) as [H1 [H2 _]].
    rewrite Hp in H1, H2. exists acts, (h ++ [tool_message r]), a. auto.
  - destruct c as [t| |]; try discriminate.
    destruct (IH Ht h (a ++ t)%string) as [pre [h' [a' [E [P1 P2]]]]].
    exists (Emit (TextDelta t) :: pre), h', a'.
    cbn [app Orchestrator.streaming]. rewrite E. auto.
Qed.

Lemma requesting_insistent :
  (forall h, requests_tool (provider h)) ->
  forall remaining h a b,
    provider_calls (requesting remaining h a b) = remaining /\
    tool_steps (requesting remaining h a b) = remaining /\
    exists init, events (requesting remaining h a b) = init ++ [TurnError StepLimitExceeded].
Proof.
  intros Hp. induction remaining as [|k IH]; intros h a b.
  - repeat split. exists []. reflexivity.
  - cbn [Orchestrator.requesting].
    destruct (Hp h) as [texts [n [rawInput [trailing [rest [E Ht]]]]]]. rewrite E.
    destruct (streaming_requests_tool (requesting k) texts n rawInput trailing rest Ht h
                (a ++ b)%string) as [pre [h' [a' [Es [P1 P2]]]]].
    rewrite Es.
    destruct (IH h' a' trailing) as [I1 [I2 [init I3]]].
    destruct (flush_quiet b) as [F1 [F2 _]].
    change (CallProvider h :: ?l) with ([CallProvider h] ++ l).
    rewrite !provider_calls_app, !tool_steps_app, F1, F2, P1, P2, I1, I2.
    repeat split; try (cbn; lia).
    exists (events (flush b) ++ events pre ++ init).
    cbn [app events]. rewrite !events_app, I3, <- !app_assoc. reflexivity.
Qed.

(** C1: in one turn the orchestrator makes at most [max_steps] provider
    requests and runs at most [max_steps] tool steps, for every provider; the
    turn always ends, being computed by recursion on the steps left.  When
    the provider asks for a tool on every response, all [max_steps] steps are
    used and the last event is turn-error with StepLimitExceeded. *)
Theorem tool_loop_is_bounded : forall max_steps history,
  let acts := run_turn max_steps history in
  provider_calls acts <= max_steps /\
  tool_steps acts <= max_steps /\
  ((forall h, requests_tool (provider h)) ->
   provider_calls acts = max_steps /\
   tool_steps acts = max_steps /\
   exists init, events acts = init ++ [TurnError StepLimitExceeded]).
Proof.
  intros max_steps history acts.
  destruct (requesting_bounded max_steps history "" "") as [H1 H2].
  split; [exact H1|]. split; [exact H2|].
  intros Hp. apply requesting_insistent, Hp.
Qed.

(** *** Invalid tool input *)

Lemma streaming_texts resume deltas :
  forall h a rest,
    streaming resume h a (map TextChunk deltas ++ rest) =
    map text_delta deltas ++ streaming resume h (fold_left String.append deltas a) rest.
Proof.
  induction deltas as [|t deltas IH]; intros h a rest; [reflexivity|].
  cbn [map app Orchestrator.streaming fold_left]. rewrite IH. reflexivity.
Qed.

(** C7 (amended): in any round of a turn, when the provider asks for a
    known tool with an input that the tool's input schema rejects, the
    invalid input itself does not end the turn.  The orchestrator emits
    tool-call-started and then tool-call-result with the InvalidToolInput
    error as payload, does not run the handler, appends the error as a tool
    part to the history, and returns to Requesting with the steps that are
    left.  If a step is left, generation continues: the next action is a
    provider request that carries the error part.  If none is left, the turn
    ends there with turn-error StepLimitExceeded. *)
Theorem invalid_tool_input_continues :
  forall k h assembled buffered deltas n rawInput trailing rest d,
  provider h = Responding (map TextChunk deltas ++ ToolCallChunk n rawInput trailing :: rest) ->
  resolve registry n = Some d ->
  accepts (inputSchema d) rawInput = false ->
  let r := {| toolName := n; input := rawInput; payload := Error InvalidToolInput |} in
  let h1 := h ++ [tool_message r] in
  let text := fold_left String.append deltas (assembled ++ buffered)%string in
  requesting (S k) h assembled buffered =
    CallProvider h :: flush buffered ++ map text_delta deltas ++
    [Emit (ToolCallStarted n rawInput); Emit (ToolCallResult r)] ++
    requesting k h1 text trailing
  /\
  (k = 0 -> requesting k h1 text trailing = [Emit (TurnError StepLimitExceeded)])
  /\
  (forall k', k = S k' ->
     exists more, requesting k h1 text trailing = CallProvider h1 :: more).
Proof.
  intros k h assembled buffered deltas n rawInput trailing rest d Hp Hr Ha r h1 text.
  split; [|split].
  - cbn [Orchestrator.requesting]. rewrite Hp. f_equal. f_equal.
    rewrite streaming_texts.
    cbn [Orchestrator.streaming]. unfold tool_pending, execute, runs_handler.
    rewrite Hr, Ha. reflexivity.
  - intros ->. reflexivity.
  - intros k' ->. cbn [Orchestrator.requesting]. eexists. reflexivity.
Qed.

End OrchestratorClaims.

Section OrchestratorRuns.
Import Orchestrator Samples.

Lemma insistent_provider_requests_tool : forall h, requests_tool (insistent_provider h).
Proof.
  intros h. exists [], "getOffers", (JObj []), "", []. split; reflexivity.
Qed.

Lemma tool_loop_is_bounded_witness :
  provider_calls (run_turn insistent_provider (twin_registry 0) coastal_context
                    default_max_steps one_question) = default_max_steps /\
  exists init,
    events (run_turn insistent_provider (twin_registry 0) coastal_context
              default_max_steps one_question) = init ++ [TurnError StepLimitExceeded].
Proof.
  destruct (tool_loop_is_bounded insistent_provider (twin_registry 0) coastal_context
              default_max_steps one_question) as [_ [_ H]].
  destruct (H insistent_provider_requests_tool) as [H1 [_ H3]].
  split; [exact H1 | exact H3].
Defined.

(** The same turn, run: five rounds of the offers tool, then the failure. *)
Example insistent_turn_events :
  let offers :=
    {| toolName := "getOffers"; input := JObj [];
       payload := Output (JArr [JObj [ ("type", JStr "percentage"); ("discount", JStr "20");
                                       ("conditions", JNull); ("endsAt", JNull) ]]) |} in
  let round := [ToolCallStarted "getOffers" (JObj []); ToolCallResult offers] in
  events (run_turn insistent_provider (twin_registry 0) coastal_context
            default_max_steps one_question) =
  round ++ round ++ round ++ round ++ round ++ [TurnError StepLimitExceeded].
Proof. reflexivity. Qed.

Lemma invalid_tool_input_continues_witness :
  events (run_turn clumsy_provider (twin_registry 0) coastal_context
            default_max_steps one_question) =
  [ TextDelta "Let me book that. ";
    ToolCallStarted "bookAppointment" numeric_date_input;
    ToolCallResult {| toolName := "bookAppointment"; input := numeric_date_input;
                      payload := Error InvalidToolInput |};
    TextDelta "Which date would you like?";
    TurnComplete "Let me book that. Which date would you like?" ].
Proof.
  destruct (invalid_tool_input_continues clumsy_provider (twin_registry 0) coastal_context
              4 one_question "" "" ["Let me book that. "] "bookAppointment"
              numeric_date_input "" []
              {| name := "bookAppointment";
                 inputSchema := TwinChat.bookAppointment_inputSchema;
                 handler := fun input _ =>
                   Produced (TwinChat.bookAppointment_execute 0 input) |}
              eq_refl eq_refl eq_refl) as [H _].
  unfold run_turn, default_max_steps. rewrite H. reflexivity.
Defined.

(** C7, as stated, fails: when the rejected tool call comes in the last
    step the turn may take, the error result is still emitted, but no
    further request is made and the turn ends with StepLimitExceeded. *)
Lemma invalid_tool_input_at_last_step :
  run_turn clumsy_provider (twin_registry 0) coastal_context 1 one_question =
  [ CallProvider one_question;
    Emit (TextDelta "Let me book that. ");
    Emit (ToolCallStarted "bookAppointment" numeric_date_input);
    Emit (ToolCallResult {| toolName := "bookAppointment"; input := numeric_date_input;
                            payload := Error InvalidToolInput |});
    Emit (TurnError StepLimitExceeded) ].
Proof. reflexivity. Qed.

End OrchestratorRuns.

(** * Further properties of the code *)

(** ** Strings *)

Section StringFacts.

Lemma prefix_app p r : String.prefix p (p ++ r) = true.
Proof.
  induction p as [|c p IH]; simpl.
  - destruct r; reflexivity.
  - destruct (ascii_dec c c) as [_|n]; [exact IH|now destruct n].
Qed.

Lemma prefix_split p s : String.prefix p s = true -> exists r, s = (p ++ r)%string.
Proof.
  revert s. induction p as [|c p IH]; intros s H.
  - exists s. reflexivity.
  - destruct s as [|d s]; simpl in H; [discriminate|].
    destruct (ascii_dec c d) as [->|]; [|discriminate].
    destruct (IH s H) as [r ->]. exists r. reflexivity.
Qed.

Lemma prefix_empty s : String.prefix "" s = true.
Proof. destruct s; reflexivity. Qed.

Lemma append_assoc (a b c : string) : ((a ++ b) ++ c = a ++ (b ++ c))%string.
Proof. induction a as [|x a IH]; simpl; [reflexivity|now rewrite IH]. Qed.

Lemma append_empty_r (a : string) : (a ++ "")%string = a.
Proof. induction a as [|x a IH]; simpl; [reflexivity|now rewrite IH]. Qed.

(** [includes] finds the needle exactly when the needle occurs somewhere. *)
Lemma includes_spec s needle :
  includes s needle = true <-> exists pre post, s = (pre ++ needle ++ post)%string.
Proof.
  split.
  - induction s as [|c s IH]; cbn [includes]; intros H.
    + apply orb_prop in H. destruct H as [H|H]; [|discriminate].
      destruct (prefix_split _ _ H) as [r ->]. exists "", r. reflexivity.
    + apply orb_prop in H. destruct H as [H|H].
      * destruct (prefix_split _ _ H) as [r Hr]. exists "", r. exact Hr.
      * destruct (IH H) as [pre [post ->]]. exists (String c pre), post. reflexivity.
  - intros [pre [post ->]]. induction pre as [|c pre IH].
    + change ("" ++ needle ++ post)%string with (needle ++ post)%string.
      destruct (needle ++ post)%string eqn:E; cbn [includes];
        rewrite <- E, prefix_app; reflexivity.
    + change (String c pre ++ needle ++ post)%string
        with (String c (pre ++ needle ++ post)).
      cbn [includes]. rewrite IH. apply orb_true_r.
Qed.

Lemma includes_empty s : includes s "" = true.
Proof. destruct s; reflexivity. Qed.

End StringFacts.

(** ** Parsed data is valid data *)

Section ZodFacts.
Import ZodShape.

Lemma accepts_object shape fields :
  accepts (z_object shape) (JObj fields) =
  forallb (fun ks => accepts (snd ks) (lookup (fst ks) fields)) shape.
Proof.
  cbn [accepts]. induction shape as [|[k sk] rest IH]; [reflexivity|].
  cbn [forallb fst snd]. rewrite <- IH. reflexivity.
Qed.

Lemma accepts_union options v :
  accepts (z_union options) v = existsb (fun o => accepts o v) options.
Proof.
  cbn [accepts]. induction options as [|o rest IH]; [reflexivity|].
  cbn [existsb]. rewrite <- IH. reflexivity.
Qed.

Lemma data_object shape fields :
  data (z_object shape) (JObj fields) = JObj (kept_fields shape fields).
Proof.
  cbn [data]. f_equal. induction shape as [|[k sk] rest IH]; [reflexivity|].
  cbn [kept_fields]. rewrite <- IH. reflexivity.
Qed.

Lemma data_union options v : data (z_union options) v = first_accepting options v.
Proof.
  cbn [data]. induction options as [|o rest IH]; [reflexivity|].
  cbn [first_accepting]. rewrite <- IH. reflexivity.
Qed.

Lemma well_formed_object shape :
  well_formed (z_object shape) =
  distinct (map fst shape) && forallb (fun ks => well_formed (snd ks)) shape.
Proof.
  cbn [well_formed]. f_equal. induction shape as [|[k sk] rest IH]; [reflexivity|].
  cbn [forallb snd]. rewrite <- IH. reflexivity.
Qed.

Lemma well_formed_union options :
  well_formed (z_union options) = forallb well_formed options.
Proof.
  cbn [well_formed]. induction options as [|o rest IH]; [reflexivity|].
  cbn [forallb]. rewrite <- IH. reflexivity.
Qed.

(** Induction over schemas, through the lists of shapes and options. *)
Section SchemaInduction.

Variable P : schema -> Prop.
Hypothesis P_string : forall max, P (z_string max).
Hypothesis P_number : P z_number.
Hypothesis P_enum : forall values, P (z_enum values).
Hypothesis P_array : forall element max, P element -> P (z_array element max).
Hypothesis P_object : forall shape, Forall (fun ks => P (snd ks)) shape -> P (z_object shape).
Hypothesis P_union : forall options, Forall P options -> P (z_union options).
Hypothesis P_optional : forall inner, P inner -> P (z_optional inner).

Fixpoint schema_induction (s : schema) : P s :=
  match s with
  | z_string max => P_string max
  | z_number => P_number
  | z_enum values => P_enum values
  | z_array element max => P_array element max (schema_induction element)
  | z_object shape =>
      P_object shape
        ((fix go (sh : list (string * schema)) : Forall (fun ks => P (snd ks)) sh :=
            match sh with
            | [] => Forall_nil _
            | ks :: rest => Forall_cons ks (schema_induction (snd ks)) (go rest)
            end) shape)
  | z_union options =>
      P_union options
        ((fix go (os : list schema) : Forall P os :=
            match os with
            | [] => Forall_nil _
            | o :: rest => Forall_cons o (schema_induction o) (go rest)
            end) options)
  | z_optional inner => P_optional inner (schema_induction inner)
  end.

End SchemaInduction.

Lemma lookup_present_app k k' d rest :
  lookup k (present k' d ++ rest) =
  if String.eqb k k'
  then match d with JUndefined => lookup k rest | _ => d end
  else lookup k rest.
Proof.
  unfold present. destruct d; cbn [is_undefined app lookup];
    destruct (String.eqb k k'); reflexivity.
Qed.

Lemma lookup_kept_absent k shape fields :
  mem_string k (map fst shape) = false -> lookup k (kept_fields shape fields) = JUndefined.
Proof.
  induction shape as [|[k' sk] rest IH]; intros H; [reflexivity|].
  cbn [map fst mem_string existsb] in H. unfold mem_string in IH.
  apply orb_false_elim in H. destruct H as [Hk Hrest].
  cbn [kept_fields]. rewrite lookup_present_app, Hk. apply IH, Hrest.
Qed.

(** With distinct keys, each kept field holds the parsed value of its key. *)
Lemma lookup_kept k sk shape fields :
  distinct (map fst shape) = true -> In (k, sk) shape ->
  lookup k (kept_fields shape fields) = data sk (lookup k fields).
Proof.
  induction shape as [|[k' sk'] rest IH]; intros Hd Hin; [destruct Hin|].
  cbn [map fst distinct] in Hd. apply andb_prop in Hd. destruct Hd as [Hk Hd].
  apply negb_true_iff in Hk.
  cbn [kept_fields]. rewrite lookup_present_app.
  destruct Hin as [E|Hin].
  - inversion E; subst. rewrite String.eqb_refl.
    rewrite (lookup_kept_absent k rest fields Hk).
    destruct (data sk (lookup k fields)); reflexivity.
  - destruct (String.eqb k k') eqn:E.
    + apply String.eqb_eq in E. subst k'.
      assert (Hm : mem_string k (map fst rest) = true).
      { unfold mem_string. apply existsb_exists. exists k. split.
        - apply in_map_iff. exists (k, sk). auto.
        - apply String.eqb_refl. }
      rewrite Hm in Hk. discriminate.
    + now apply IH.
Qed.

(** What [safeParse] hands back is accepted by the schema again. *)
Lemma data_accepted : forall s v,
  well_formed s = true -> accepts s v = true -> accepts s (data s v) = true.
Proof.
  intros s. induction s as [max| |values|element max IH|shape IH|options IH|inner IH]
    using schema_induction; intros v Hwf Ha.
  - exact Ha.
  - exact Ha.
  - exact Ha.
  - destruct v as [| | | | |items|?]; try discriminate.
    cbn [accepts data] in *. apply andb_prop in Ha. destruct Ha as [Hall Hlen].
    rewrite length_map, Hlen, andb_true_r.
    rewrite forallb_forall in *. intros x Hx.
    apply in_map_iff in Hx. destruct Hx as [y [<- Hy]]. apply IH; auto.
  - destruct v as [| | | | | |fields]; try discriminate.
    rewrite data_object, accepts_object. rewrite accepts_object in Ha.
    rewrite well_formed_object in Hwf. apply andb_prop in Hwf. destruct Hwf as [Hd Hwf].
    rewrite forallb_forall in *. intros [k sk] Hin. cbn [fst snd].
    rewrite (lookup_kept k sk shape fields Hd Hin).
    rewrite Forall_forall in IH.
    apply (IH (k, sk) Hin); [apply (Hwf (k, sk) Hin)|apply (Ha (k, sk) Hin)].
  - rewrite data_union, accepts_union. rewrite accepts_union in Ha.
    rewrite well_formed_union in Hwf.
    induction options as [|o rest IHrest]; [discriminate|].
    inversion IH as [|? ? Ho Hrest]; subst.
    cbn [forallb] in Hwf. apply andb_prop in Hwf. destruct Hwf as [Hwo Hwr].
    cbn [first_accepting existsb] in *.
    destruct (accepts o v) eqn:E.
    + rewrite (Ho v Hwo E). reflexivity.
    + cbn [orb] in Ha. rewrite (IHrest Hrest Hwr Ha). apply orb_true_r.
  - destruct v; cbn [accepts data] in *; try reflexivity;
      match goal with |- match ?d with _ => _ end = true =>
        pose proof (IH _ Hwf Ha) as H; destruct d; auto end.
Qed.

End ZodFacts.

(** ** White space and [trim] *)

Section TrimFacts.
Import TwinChatClient.

Lemma trimStart_blank s : trimStart s = "" <-> blank s = true.
Proof.
  induction s as [|c s IH]; cbn [trimStart blank]; [split; reflexivity|].
  destruct (is_white_space c); cbn [andb]; [exact IH|].
  split; discriminate.
Qed.

Lemma trimEnd_blank s : trimEnd s = "" <-> blank s = true.
Proof.
  induction s as [|c s IH]; cbn [trimEnd blank]; [split; reflexivity|].
  destruct (trimEnd s) eqn:E.
  - rewrite (proj1 IH eq_refl).
    destruct (is_white_space c); cbn [andb]; [split; reflexivity|split; discriminate].
  - split; [discriminate|]. intros H. apply andb_prop in H. destruct H as [_ H].
    apply IH in H. discriminate.
Qed.

Lemma trimStart_head s c rest : trimStart s = String c rest -> is_white_space c = false.
Proof.
  induction s as [|x s IH]; cbn [trimStart]; [discriminate|].
  destruct (is_white_space x) eqn:E; [exact IH|].
  intros H. inversion H; subst. exact E.
Qed.

(** [trim] gives the empty string exactly for blank input. *)
Lemma trim_blank s : trim s = "" <-> blank s = true.
Proof.
  unfold trim. split.
  - intros H. apply trimEnd_blank in H.
    destruct (trimStart s) as [|c rest] eqn:E.
    + apply trimStart_blank, E.
    + cbn [blank] in H. rewrite (trimStart_head s c rest E) in H. discriminate.
  - intros H. apply trimStart_blank in H. rewrite H. reflexivity.
Qed.

(** What [trimEnd] returns does not end in white space. *)
Lemma trimEnd_last s : forall b c,
  trimEnd s = (b ++ String c "")%string -> is_white_space c = false.
Proof.
  induction s as [|x s IH]; intros b c; cbn [trimEnd].
  - destruct b; discriminate.
  - destruct (trimEnd s) as [|y r] eqn:E.
    + destruct (is_white_space x) eqn:W; [destruct b; discriminate|].
      destruct b as [|x' b]; cbn [append]; intros H; inversion H; subst; [exact W|].
      destruct b; discriminate.
    + destruct b as [|x' b]; cbn [append]; intros H; inversion H; subst.
      apply (IH b c). assumption.
Qed.

Lemma trim_last s b c : trim s = (b ++ String c "")%string -> is_white_space c = false.
Proof. apply trimEnd_last. Qed.

Lemma trim_head s c rest : trim s = String c rest -> is_white_space c = false.
Proof.
  unfold trim. intros H.
  destruct (trimStart s) as [|x r] eqn:E; [discriminate|].
  pose proof (trimStart_head s x r E) as Hx.
  cbn [trimEnd] in H. destruct (trimEnd r); [rewrite Hx in H|];
    inversion H; subst; exact Hx.
Qed.

End TrimFacts.

(** ** More on the chat endpoint *)

Section ChatRouteMore.
Import ChatRoute Samples.

Local Opaque accepts data trim startsWith includes.

Ltac run_POST :=
  unfold POST, safeParse, actions_of, response_of, calls_provider, bind, perform, ret;
  cbn [session json_body fst snd].

(** The runs of the handler, one per way it can end. *)
Lemma POST_cases convert env req :
  (POST convert env req = (JsonResponse 401 (ErrorBody "Unauthorized"), [GetSession])) \/
  (POST convert env req =
     (JsonResponse 400 (ErrorBody "Invalid JSON"), [GetSession; ReadJsonBody])) \/
  (exists body, json_body req = Some body /\ accepts chatRequestSchema body = false /\
     POST convert env req = invalid_request body) \/
  (exists body msg, json_body req = Some body /\ accepts chatRequestSchema body = true /\
     key_usable (OPENROUTER_API_KEY env) = false /\
     POST convert env req = (JsonResponse 500 (ErrorBody msg), checked_key)) \/
  (exists body error, json_body req = Some body /\ accepts chatRequestSchema body = true /\
     key_usable (OPENROUTER_API_KEY env) = true /\
     convert (parsed_messages body) = ConversionThrows error /\
     POST convert env req = (Uncaught error, checked_key)) \/
  (exists body k modelMessages,
     json_body req = Some body /\ accepts chatRequestSchema body = true /\
     OPENROUTER_API_KEY env = Some k /\ key_usable (Some k) = true /\
     convert (parsed_messages body) = Converted modelMessages /\
     let call := {| call_apiKey := trim k; call_model := model_id env;
                    call_messages := modelMessages |} in
     POST convert env req = (UIMessageStreamResponse call getOpenRouterFriendlyError,
                             checked_key ++ [StreamText call])).
Proof.
  destruct req as [[user|] [body|]]; try (left; reflexivity);
    try (right; left; reflexivity).
  right; right.
  destruct (accepts chatRequestSchema body) eqn:Ha.
  - right. unfold key_usable, parsed_messages. run_POST. rewrite Ha.
    destruct (OPENROUTER_API_KEY env) as [k|]; cbn [option_map].
    + destruct (is_empty (trim k)) eqn:He; cbn [negb andb].
      * left. exists body. eexists. repeat split; try assumption; reflexivity.
      * destruct (startsWith (trim k) "sk-or-v1-") eqn:Hs; cbn [negb orb andb].
        -- destruct (includes (trim k) "your-key") eqn:Hi; cbn [negb].
           ++ left. exists body. eexists. repeat split; try assumption; reflexivity.
           ++ right.
              destruct (convert (field "messages" (data chatRequestSchema body)))
                as [modelMessages|error] eqn:Hc.
              ** right. exists body, k, modelMessages.
                 repeat split; try assumption; try reflexivity.
                 rewrite He, Hs, Hi. reflexivity.
              ** left. exists body, error. repeat split; try assumption; reflexivity.
        -- left. exists body. eexists. repeat split; try assumption; reflexivity.
    + left. exists body. eexists. repeat split; try assumption; reflexivity.
  - left. exists body. repeat split; auto. run_POST. rewrite Ha. reflexivity.
Qed.

End ChatRouteMore.

Section ChatRouteExtras.
Import ChatRoute Samples MoreSamples.

Lemma chat_data_messages body :
  accepts chatRequestSchema body = true ->
  parsed_messages body = JArr (map (data messageSchema) (messages_of body)) /\
  forallb (accepts messageSchema) (messages_of body) = true /\
  (Z.of_nat (length (messages_of body)) <= 100)%Z.
Proof.
  intros Ha. unfold parsed_messages.
  destruct body as [| | | | | |fields]; try discriminate.
  unfold chatRequestSchema in *. rewrite accepts_object in Ha. rewrite data_object.
  cbn [forallb fst snd ZodShape.kept_fields] in *. unfold messages_of. cbn [field].
  destruct (lookup "messages" fields) as [| | | | |ms|?]; try discriminate.
  cbn [accepts within] in Ha. rewrite andb_true_r in Ha.
  apply andb_prop in Ha. destruct Ha as [Hall Hlen].
  split; [reflexivity|]. split; [exact Hall|]. now apply Z.leb_le.
Qed.

Lemma not_streamed call (l : list Action) :
  forallb (fun a => negb (is_StreamText a)) l = true -> ~ In (StreamText call) l.
Proof.
  intros H Hin. rewrite forallb_forall in H. specialize (H _ Hin). discriminate.
Qed.

(** Whatever reaches the provider came out of the last of the handler's
    runs. *)
Lemma streamed_call convert env req call :
  In (StreamText call) (actions_of (POST convert env req)) ->
  exists body k modelMessages,
    json_body req = Some body /\ accepts chatRequestSchema body = true /\
    OPENROUTER_API_KEY env = Some k /\ key_usable (Some k) = true /\
    convert (parsed_messages body) = Converted modelMessages /\
    call = {| call_apiKey := trim k; call_model := model_id env;
              call_messages := modelMessages |}.
Proof.
  intros Hin.
  destruct (POST_cases convert env req)
    as [E|[E|[[body [_ [_ E]]]|[[body [msg [_ [_ [_ E]]]]]|[[body [error [_ [_ [_ [_ E]]]]]]|H]]]]];
    try (rewrite E in Hin; exfalso; revert Hin; apply not_streamed; reflexivity).
  destruct H as [body [k [modelMessages [Hb [Ha [Hk [Hu [Hc E]]]]]]]]. cbv zeta in E.
  rewrite E in Hin. cbn [actions_of snd checked_key app] in Hin.
  exists body, k, modelMessages. repeat split; auto.
  destruct Hin as [H|[H|[H|[H|[H|[]]]]]]; try discriminate.
  inversion H. reflexivity.
Qed.

(** X1.  Whenever the handler calls the provider, the messages it passes
    are what [convertToModelMessages] returned for the parsed messages of the
    request body (unknown keys stripped).  What is converted is at most 100
    messages, each accepted by [messageSchema] again, so that every part's
    text (in [parts] or in an array-valued [content]) has at most 10,000
    characters. *)
Theorem provider_receives_validated_messages : forall convert env req call,
  In (StreamText call) (actions_of (POST convert env req)) ->
  exists body,
    json_body req = Some body /\
    let parsed := JArr (map (data messageSchema) (messages_of body)) in
    convert parsed = Converted (call_messages call) /\
    (Z.of_nat (length (array_items parsed)) <= 100)%Z /\
    forallb (accepts messageSchema) (array_items parsed) = true /\
    forallb (fun m => forallb part_within_bound (parts_of m)) (array_items parsed) = true.
Proof.
  intros convert env req call Hin.
  destruct (streamed_call convert env req call Hin)
    as [body [k [modelMessages [Hb [Ha [_ [_ [Hc ->]]]]]]]].
  destruct (chat_data_messages body Ha) as [Hm [Hall Hlen]].
  exists body. cbv zeta. cbn [call_messages array_items]. rewrite <- Hm.
  assert (Hacc : forallb (accepts messageSchema) (map (data messageSchema) (messages_of body))
                 = true).
  { rewrite forallb_forall in *. intros m Hmin. apply in_map_iff in Hmin.
    destruct Hmin as [m0 [<- Hm0]]. apply data_accepted; [reflexivity|auto]. }
  repeat split; auto.
  - now rewrite length_map.
  - rewrite (forallb_ext_eq _ _ _ message_accepts_split), forallb_andb in Hacc.
    apply andb_prop in Hacc. apply Hacc.
Qed.

Lemma provider_receives_validated_messages_witness :
  exists body,
    json_body (signed_in hello_body) = Some body /\
    let parsed := JArr (map (data messageSchema) (messages_of body)) in
    convert_parts parsed =
      Converted (JArr [model_message (user_message "hello")]) /\
    (Z.of_nat (length (array_items parsed)) <= 100)%Z /\
    forallb (accepts messageSchema) (array_items parsed) = true /\
    forallb (fun m => forallb part_within_bound (parts_of m)) (array_items parsed) = true.
Proof.
  apply (provider_receives_validated_messages convert_parts good_env (signed_in hello_body)
           {| call_apiKey := "sk-or-v1-0123456789abcdef";
              call_model := "openai/gpt-5-mini";
              call_messages := JArr [model_message (user_message "hello")] |}).
  vm_compute. do 4 right. left. reflexivity.
Defined.

(** X2.  Every run of the handler is a prefix of one fixed sequence: look up
    the session, read the body, validate it, read the API key, convert the
    messages, call the provider.  It stops at the first step that fails: with
    401, 400, 400 and 500 in that order for the first four, and by throwing,
    with no response, when the conversion throws.  The provider is called at
    most once, as the last action, and exactly when the answer is the message
    stream, whose error texts come from [getOpenRouterFriendlyError]. *)
Theorem POST_runs_in_order : forall convert env req,
  match response_of (POST convert env req) with
  | JsonResponse status _ =>
      calls_provider (POST convert env req) = false /\
      ((status = 401%Z /\ actions_of (POST convert env req) = [GetSession]) \/
       (status = 400%Z /\ actions_of (POST convert env req) = [GetSession; ReadJsonBody]) \/
       (status = 400%Z /\
        actions_of (POST convert env req) = [GetSession; ReadJsonBody; ValidateBody]) \/
       (status = 500%Z /\
        actions_of (POST convert env req) =
          [GetSession; ReadJsonBody; ValidateBody; ReadApiKey]))
  | Uncaught error =>
      calls_provider (POST convert env req) = false /\
      actions_of (POST convert env req) =
        [GetSession; ReadJsonBody; ValidateBody; ReadApiKey] /\
      exists body,
        json_body req = Some body /\
        convert (parsed_messages body) = ConversionThrows error
  | UIMessageStreamResponse call onError =>
      actions_of (POST convert env req) =
        [GetSession; ReadJsonBody; ValidateBody; ReadApiKey; StreamText call] /\
      (forall e, onError e = getOpenRouterFriendlyError e) /\
      exists body,
        json_body req = Some body /\
        convert (parsed_messages body) = Converted (call_messages call)
  end.
Proof.
  intros convert env req.
  destruct (POST_cases convert env req)
    as [E|[E|[[body [_ [_ E]]]|[[body [msg [_ [_ [_ E]]]]]|[H|H]]]]].
  - rewrite E. cbn. auto.
  - rewrite E. cbn. auto.
  - rewrite E. cbn. auto 6.
  - rewrite E. cbn. auto 7.
  - destruct H as [body [error [Hb [_ [_ [Hc E]]]]]]. rewrite E. cbn.
    split; [reflexivity|]. split; [reflexivity|]. exists body. auto.
  - destruct H as [body [k [modelMessages [Hb [_ [_ [_ [Hc E]]]]]]]]. cbv zeta in E.
    rewrite E. cbn. split; [reflexivity|]. split; [reflexivity|]. exists body. auto.
Qed.

(** X3.  Whenever the provider is called, the key it is given is the
    configured key with surrounding white space removed: it begins with
    "sk-or-v1-", does not contain "your-key", and does not end in white
    space.  The model is OPENROUTER_MODEL whenever that is set and not empty,
    and "openai/gpt-5-mini" exactly when it is unset or empty; so the model
    name is never empty. *)
Theorem provider_key_is_clean : forall convert env req call,
  In (StreamText call) (actions_of (POST convert env req)) ->
  exists k,
    OPENROUTER_API_KEY env = Some k /\
    call_apiKey call = trim k /\
    (exists rest, call_apiKey call = "sk-or-v1-" ++ rest)%string /\
    (forall pre post, call_apiKey call <> pre ++ "your-key" ++ post)%string /\
    (forall b c, call_apiKey call = b ++ String c "" -> is_white_space c = false)%string /\
    call_model call <> "" /\
    (forall m, OPENROUTER_MODEL env = Some m -> m <> "" -> call_model call = m) /\
    (OPENROUTER_MODEL env = None \/ OPENROUTER_MODEL env = Some "" ->
     call_model call = default_model).
Proof.
  intros convert env req call Hin.
  destruct (streamed_call convert env req call Hin)
    as [body [k [modelMessages [_ [_ [Hk [Hu [_ ->]]]]]]]].
  exists k. cbn [call_apiKey call_model]. unfold key_usable in Hu.
  apply andb_prop in Hu. destruct Hu as [Hu Hy].
  apply andb_prop in Hu. destruct Hu as [_ Hs].
  split; [exact Hk|]. split; [reflexivity|]. split; [|split; [|split; [|split; [|split]]]].
  - apply prefix_split. exact Hs.
  - intros pre post E. apply negb_true_iff in Hy.
    assert (H : includes (trim k) "your-key" = true)
      by (apply includes_spec; eauto).
    rewrite H in Hy. discriminate.
  - intros b c. apply trim_last.
  - unfold model_id. destruct (OPENROUTER_MODEL env) as [m|]; [|discriminate].
    destruct m; [discriminate|]. cbn. discriminate.
  - intros m Hm Hne. unfold model_id. rewrite Hm.
    destruct m; [contradiction|reflexivity].
  - intros [Hm|Hm]; unfold model_id; rewrite Hm; reflexivity.
Qed.

Lemma provider_key_is_clean_witness :
  exists k,
    OPENROUTER_API_KEY padded_key_env = Some k /\
    "sk-or-v1-0123456789abcdef" = trim k /\
    (exists rest, "sk-or-v1-0123456789abcdef" = "sk-or-v1-" ++ rest)%string /\
    (forall pre post, "sk-or-v1-0123456789abcdef" <> pre ++ "your-key" ++ post)%string /\
    (forall b c, "sk-or-v1-0123456789abcdef" = b ++ String c "" ->
                 is_white_space c = false)%string /\
    "openai/gpt-5-mini" <> "" /\
    (forall m, OPENROUTER_MODEL padded_key_env = Some m -> m <> "" ->
               "openai/gpt-5-mini" = m) /\
    (OPENROUTER_MODEL padded_key_env = None \/ OPENROUTER_MODEL padded_key_env = Some "" ->
     "openai/gpt-5-mini" = default_model).
Proof.
  apply (provider_key_is_clean convert_parts padded_key_env (signed_in hello_body)
           {| call_apiKey := "sk-or-v1-0123456789abcdef";
              call_model := "openai/gpt-5-mini";
              call_messages := JArr [model_message (user_message "hello")] |}).
  vm_compute. do 4 right. left. reflexivity.
Defined.

(** X4.  An error whose response body contains the quoted text
    "User not found" anywhere is reported as an authentication failure,
    whatever its status (429 included) and whatever its message; a 429 whose
    body does not contain it is reported as a rate limit. *)
Theorem friendly_error_by_body : forall o : ErrorObject,
  (forall pre post,
     responseBody o = Some (pre ++ user_not_found ++ post)%string ->
     getOpenRouterFriendlyError (ThrownObject o) = auth_failed_message)
  /\
  (statusCode o = Some 429%Z ->
   (forall pre post, responseBody o <> Some (pre ++ user_not_found ++ post)%string) ->
   getOpenRouterFriendlyError (ThrownObject o) = rate_limit_message).
Proof.
  intros o. unfold getOpenRouterFriendlyError.
  cbn [thrown_statusCode thrown_responseBody]. split.
  - intros pre post E. rewrite E. cbn [body_mentions_user_not_found].
    assert (H : includes (pre ++ user_not_found ++ post) user_not_found = true)
      by (apply includes_spec; eauto).
    rewrite H, orb_true_r. reflexivity.
  - intros Hs Hb. rewrite Hs.
    assert (H : body_mentions_user_not_found (responseBody o) = false).
    { destruct (responseBody o) as [b|] eqn:E; [|reflexivity].
      cbn [body_mentions_user_not_found].
      destruct (includes b user_not_found) eqn:Hi; [|reflexivity].
      apply includes_spec in Hi. destruct Hi as [pre [post ->]].
      exfalso. apply (Hb pre post). reflexivity. }
    rewrite H. reflexivity.
Qed.

End ChatRouteExtras.

(** ** More on the twin-chat handler *)

Section TwinChatExtras.
Import TwinChat TwinChatClient MoreSamples.

Variable JSON_stringify : JsValue -> string.
Variable convertToModelMessages : JsValue -> ChatRoute.Conversion.
Variable logoUrl : Card -> JsValue.

Lemma first_of_limit1 {Row} (p : Row -> bool) (rows : list Row) r :
  first_of (firstn 1 (filter p rows)) = Some r -> In r rows /\ p r = true.
Proof.
  destruct (filter p rows) as [|x l] eqn:E; [discriminate|].
  cbn. intros H. inversion H; subst.
  apply filter_In. rewrite E. left. reflexivity.
Qed.

(** X5.  The facts loaded for a turn are those of the requested card and of
    no other: the card and the twin, when present, carry that card id; the
    products are exactly the store's products of that card and the offers
    exactly its promotions, in store order.  No promotion of the card is left
    out, whatever its end date. *)
Theorem context_is_scoped_to_card : forall (s : Store) (id : string),
  exists ctx,
    outcome_of (load_context id) s = Return ctx /\
    (forall c, card ctx = Some c -> In c (cards s) /\ card_id c = id) /\
    (forall t, twin ctx = Some t -> In t (cardDigitalTwins s) /\ twin_cardId t = id) /\
    businessProducts ctx = filter (fun p => String.eqb (product_cardId p) id) (products s) /\
    activeOffers ctx = filter (fun o => String.eqb (promotion_cardId o) id) (promotions s) /\
    (forall p, In p (businessProducts ctx) <-> In p (products s) /\ product_cardId p = id) /\
    (forall o, In o (activeOffers ctx) <-> In o (promotions s) /\ promotion_cardId o = id).
Proof.
  intros s id. eexists. split; [reflexivity|]. cbn [card twin businessProducts activeOffers].
  repeat split.
  - apply (first_of_limit1 _ _ _ H).
  - apply String.eqb_eq. apply (first_of_limit1 _ _ _ H).
  - apply (first_of_limit1 _ _ _ H).
  - apply String.eqb_eq. apply (first_of_limit1 _ _ _ H).
  - apply filter_In in H. apply H.
  - apply filter_In in H. apply String.eqb_eq, H.
  - intros [H1 H2]. apply filter_In. split; [exact H1|now apply String.eqb_eq].
  - apply filter_In in H. apply H.
  - apply filter_In in H. apply String.eqb_eq, H.
  - intros [H1 H2]. apply filter_In. split; [exact H1|now apply String.eqb_eq].
Qed.

(** X6.  The handler answers with a stream exactly when the store has a
    card with the requested id and the conversion of the messages returns:
    then the provider is called once, after the four selects, with the
    converted messages.  With a card and a conversion that throws, the
    handler throws that error after the four selects; without a card it
    throws TypeError (reading 'businessName') after the four selects, before
    the messages are looked at.  In neither case is the provider called. *)
Theorem twin_chat_answers_iff_card_exists : forall (s : Store) id messages,
  if has_card s id
  then match convertToModelMessages messages with
       | ChatRoute.Converted modelMessages =>
           exists ctx system,
             outcome_of (POST JSON_stringify convertToModelMessages id messages) s =
               Return (UIMessageStreamResponse ctx system) /\
             effects_of (POST JSON_stringify convertToModelMessages id messages) s =
               [Select CardsT; Select CardDigitalTwinsT; Select ProductsT;
                Select PromotionsT; StreamText system modelMessages]
       | ChatRoute.ConversionThrows error =>
           outcome_of (POST JSON_stringify convertToModelMessages id messages) s =
             Throw (SdkError error) /\
           effects_of (POST JSON_stringify convertToModelMessages id messages) s =
             [Select CardsT; Select CardDigitalTwinsT; Select ProductsT; Select PromotionsT]
       end
  else outcome_of (POST JSON_stringify convertToModelMessages id messages) s =
         Throw (TypeError "businessName") /\
       effects_of (POST JSON_stringify convertToModelMessages id messages) s =
         [Select CardsT; Select CardDigitalTwinsT; Select ProductsT; Select PromotionsT].
Proof.
  intros s id messages. destruct (has_card s id) eqn:H.
  - destruct (existing_card_behaviour JSON_stringify convertToModelMessages s id messages H)
      as [c [system [_ [_ [_ E]]]]]. cbv zeta in E.
    unfold outcome_of, effects_of. rewrite E.
    destruct (convertToModelMessages messages) as [modelMessages|error].
    + eexists. exists system. split; reflexivity.
    + split; reflexivity.
  - destruct (missing_card_behaviour JSON_stringify convertToModelMessages s id messages H)
      as [_ E]. exact E.
Qed.

(** X7.  The card page shows "Business not found" exactly when the store
    has no card with the id of the URL.  Otherwise it shows a card of the
    store with that id: the heading is that card's business name, and the
    chat is mounted with the card's id, name and logo.  On the same store a chat
    request for the id the page passes on is grounded in that same card and
    does not meet the handler's missing-card TypeError: it is answered with
    a stream when the conversion of the messages returns, and throws the
    conversion's error otherwise. *)
Theorem card_page_chat_is_answered : forall (s : Store) id messages,
  if has_card s id
  then exists c,
         In c (cards s) /\ card_id c = id /\
         outcome_of (CardPage logoUrl id) s =
           Return (CardView (TwinChat.businessName c)
                     {| cardId := card_id c;
                        businessName := TwinChat.businessName c;
                        businessLogo := or_undefined (logoUrl c) |}) /\
         match convertToModelMessages messages with
         | ChatRoute.Converted _ =>
             exists ctx system,
               card ctx = Some c /\
               outcome_of (POST JSON_stringify convertToModelMessages (card_id c) messages) s =
                 Return (UIMessageStreamResponse ctx system)
         | ChatRoute.ConversionThrows error =>
             outcome_of (POST JSON_stringify convertToModelMessages (card_id c) messages) s =
               Throw (SdkError error)
         end
  else outcome_of (CardPage logoUrl id) s = Return BusinessNotFound.
Proof.
  intros s id messages. destruct (has_card s id) eqn:H.
  - destruct (existing_card_behaviour JSON_stringify convertToModelMessages s id messages H)
      as [c [system [Hfirst [Hin [Hid E]]]]]. cbv zeta in E.
    exists c. split; [exact Hin|]. split; [exact Hid|]. split.
    + unfold outcome_of, CardPage, bind, limit1, select, ret, initial.
      cbn [fst snd store]. rewrite Hfirst. reflexivity.
    + rewrite Hid. unfold outcome_of. rewrite E.
      destruct (convertToModelMessages messages) as [modelMessages|error].
      * eexists. exists system. split; [|reflexivity]. reflexivity.
      * reflexivity.
  - pose proof (filter_no_card s id H) as Hf.
    unfold outcome_of, CardPage, bind, limit1, select, ret, initial.
    simpl. rewrite Hf. reflexivity.
Qed.

Lemma lower_char_idempotent c : lower_char (lower_char c) = lower_char c.
Proof. destruct c as [[] [] [] [] [] [] [] []]; reflexivity. Qed.

Lemma toLowerCase_idempotent s : toLowerCase (toLowerCase s) = toLowerCase s.
Proof.
  induction s as [|c s IH]; cbn [toLowerCase]; [reflexivity|].
  now rewrite lower_char_idempotent, IH.
Qed.

Lemma toLowerCase_empty s : is_empty (toLowerCase s) = is_empty s.
Proof. destruct s; reflexivity. Qed.

Lemma getProducts_with_category (ctx : ContextBundle) c :
  c <> "" ->
  getProducts_execute ctx (with_category c) =
  JArr (map product_view (filter (category_matches c) (businessProducts ctx))).
Proof. destruct c; [contradiction|reflexivity]. Qed.

(** X8.  The products tool: without a category, or with an empty one, it
    returns every product of the business.  With a category it returns, in
    order, exactly the products whose own category contains the requested
    text, letter case ignored; products without a category are left out, and
    two spellings that differ only in case give the same answer. *)
Theorem getProducts_filters_by_category : forall (ctx : ContextBundle),
  (forall input, truthy (field "category" input) = false ->
     getProducts_execute ctx input = JArr (map product_view (businessProducts ctx)))
  /\
  (forall c, c <> "" ->
     exists kept,
       getProducts_execute ctx (with_category c) = JArr (map product_view kept) /\
       kept = filter (category_matches c) (businessProducts ctx) /\
       forall p, In p kept <->
         In p (businessProducts ctx) /\
         exists pc pre post,
           category p = Some pc /\
           toLowerCase pc = (pre ++ toLowerCase c ++ post)%string)
  /\
  (forall c, c <> "" ->
     getProducts_execute ctx (with_category (toLowerCase c)) =
     getProducts_execute ctx (with_category c)).
Proof.
  intros ctx. split; [|split].
  - intros input H. unfold getProducts_execute. rewrite H. reflexivity.
  - intros c Hc. eexists. split; [|split; [reflexivity|]].
    + apply getProducts_with_category, Hc.
    + intros p. rewrite filter_In. unfold category_matches.
      split; intros [Hin H]; (split; [exact Hin|]).
      * destruct (category p) as [pc|]; [|discriminate].
        apply includes_spec in H. destruct H as [pre [post E]]. eauto.
      * destruct H as [pc [pre [post [E1 E2]]]]. rewrite E1.
        apply includes_spec. eauto.
  - intros c Hc. rewrite !getProducts_with_category; auto.
    + do 2 f_equal. apply filter_ext. intros p. unfold category_matches.
      now rewrite toLowerCase_idempotent.
    + destruct c; [contradiction|discriminate].
Qed.

(** X9.  The chat form sends a message exactly when its submit button is
    enabled.  An input that is empty or all white space is never sent, and
    nothing is sent while a reply is loading; otherwise the input goes out as
    typed, not trimmed, and the field is cleared. *)
Theorem handleSubmit_sends_when_enabled : forall st : FormState,
  sent (handleSubmit st) = (if submit_disabled st then [] else [input st]) /\
  (blank (input st) = true -> sent (handleSubmit st) = []) /\
  (isLoading st = true -> sent (handleSubmit st) = []) /\
  (blank (input st) = false -> isLoading st = false ->
   handleSubmit st = [PreventDefault; SendMessage (input st); SetInput ""]).
Proof.
  intros st. unfold handleSubmit, submit_disabled.
  assert (Hb : is_empty (trim (input st)) = blank (input st)).
  { destruct (blank (input st)) eqn:B.
    - apply trim_blank in B. rewrite B. reflexivity.
    - destruct (trim (input st)) eqn:E; [|reflexivity].
      apply trim_blank in E. congruence. }
  rewrite Hb. repeat split.
  - destruct (blank (input st)), (isLoading st); reflexivity.
  - intros ->. reflexivity.
  - intros ->. rewrite orb_true_r. reflexivity.
  - intros -> ->. reflexivity.
Qed.

End TwinChatExtras.

(** ** More on generate-offer *)

Section GenerateOfferExtras.
Import GenerateOffer OfferShape.

Lemma data_string_array v :
  is_string_array v = true -> data (z_array (z_string None) None) v = v.
Proof.
  destruct v as [| | | | |items|?]; try discriminate. intros _.
  cbn [data]. now rewrite map_data_string.
Qed.

Lemma data_optional_string v : data (z_optional (z_string None)) v = v.
Proof. destruct v; reflexivity. Qed.

(** X10.  For an accepted object the 200 answer carries exactly the seven
    declared fields, each with the value the model gave it; every other key
    of the generated object is dropped and never reaches the client. *)
Theorem offer_answer_has_declared_fields_only : forall json_body fields body,
  POST json_body (Some (JObj fields)) = Json 200 body ->
  exists out,
    body = JObj out /\
    forall k, lookup k out =
              if Zod.mem_string k declared_keys then lookup k fields else JUndefined.
Proof.
  intros json_body fields body H. unfold POST, safeParse in H.
  remember (data offerSchema (JObj fields)) as d eqn:Hd.
  destruct json_body as [b|]; [|discriminate].
  destruct (read_businessName b) as [bn|]; [|discriminate].
  destruct (negb (truthy bn)); [discriminate|].
  destruct (accepts offerSchema (JObj fields)) eqn:Ha; [|discriminate].
  injection H as <-. subst d.
  apply offerSchema_accepts_iff in Ha.
  destruct Ha as [fields' [E [H1 [H2 [H3 [H4 [H5 [H6 H7]]]]]]]].
  inversion E; subst fields'. clear E.
  unfold offerSchema. rewrite data_object. eexists. split; [reflexivity|].
  intros k.
  destruct (Zod.mem_string k declared_keys) eqn:Hk.
  - unfold Zod.mem_string, declared_keys in Hk. cbn [existsb] in Hk.
    repeat (apply orb_prop in Hk; destruct Hk as [Hk|Hk]); try discriminate;
      apply String.eqb_eq in Hk; subst k;
      (erewrite lookup_kept; [|reflexivity|cbn; eauto 10]).
    + destruct (lookup "title" fields); try discriminate; reflexivity.
    + destruct (lookup "description" fields); try discriminate; reflexivity.
    + destruct (lookup "discount" fields); try discriminate; reflexivity.
    + apply data_optional_string.
    + destruct (lookup "socialCaption" fields); try discriminate; reflexivity.
    + now apply data_string_array.
    + destruct (lookup "urgencyText" fields); try discriminate; reflexivity.
  - apply lookup_kept_absent. exact Hk.
Qed.

Lemma offer_answer_has_declared_fields_only_witness :
  exists out,
    data offerSchema Samples.complete_offer = JObj out /\
    forall k, lookup k out =
              if Zod.mem_string k declared_keys
              then field k Samples.complete_offer else JUndefined.
Proof.
  apply (offer_answer_has_declared_fields_only (Some Samples.offer_request)).
  reflexivity.
Defined.

(** X11.  The model's output matters only for a request that names a
    business.  A body that is not JSON, or is [null], is answered 500
    "Failed to generate content"; any other body whose businessName is
    missing or falsy is answered 400 "Business name is required"; in both
    cases the answer is the same whatever the model would have produced. *)
Theorem offer_request_is_checked_first : forall body generated,
  POST None generated = Json 500 (error_body "Failed to generate content") /\
  POST (Some JNull) generated = Json 500 (error_body "Failed to generate content") /\
  (body <> JNull -> body <> JUndefined ->
   truthy (field "businessName" body) = false ->
   POST (Some body) generated = Json 400 (error_body "Business name is required")).
Proof.
  intros body generated. repeat split.
  intros Hn Hu Ht. unfold POST.
  destruct body; try contradiction; cbn [read_businessName]; rewrite Ht; reflexivity.
Qed.

End GenerateOfferExtras.

(** ** The merchant table: search and pages *)

Section MerchantTableFacts.
Import MerchantTable.
Local Open Scope Z_scope.

Lemma ceil_div_bounds n :
  0 <= n ->
  (ceil_div n itemsPerPage - 1) * 10 < n + (if n =? 0 then 1 else 0) /\
  n <= ceil_div n itemsPerPage * 10 /\
  (n = 0 -> ceil_div n itemsPerPage = 0) /\
  (0 < n -> 1 <= ceil_div n itemsPerPage).
Proof.
  intros Hn. unfold ceil_div, itemsPerPage.
  destruct (Z.eqb_spec n 0); Z.div_mod_to_equations; lia.
Qed.

(** A page of a list, for a page number from 1 on. *)
Lemma slice_page {A} (xs : list A) p :
  1 <= p ->
  slice ((p - 1) * itemsPerPage) (p * itemsPerPage) xs =
  firstn 10 (skipn (10 * Z.to_nat (p - 1)) xs).
Proof.
  intros Hp. unfold slice, slice_index, itemsPerPage.
  set (len := Z.of_nat (length xs)).
  destruct (Z.ltb_spec ((p - 1) * 10) 0); [lia|].
  destruct (Z.ltb_spec (p * 10) 0); [lia|].
  replace (10 * Z.to_nat (p - 1))%nat with (Z.to_nat ((p - 1) * 10)) by lia.
  destruct (Z_le_gt_dec len ((p - 1) * 10)) as [Hbig|Hsmall].
  - rewrite !skipn_all2 by (subst len; lia). now rewrite !firstn_nil.
  - rewrite (Z.min_l ((p - 1) * 10) len) by lia.
    destruct (Z_le_gt_dec (p * 10) len) as [Hfull|Hpart].
    + rewrite (Z.min_l (p * 10) len) by lia. f_equal. lia.
    + rewrite (Z.min_r (p * 10) len) by lia.
      rewrite !firstn_all2; [reflexivity| |]; rewrite length_skipn; subst len; lia.
Qed.

Lemma flat_map_pages {A} (k : nat) : forall xs : list A,
  (length xs <= 10 * k)%nat ->
  flat_map (fun i => firstn 10 (skipn (10 * i) xs)) (seq 0 k) = xs.
Proof.
  induction k as [|k IH]; intros xs Hlen.
  - destruct xs; [reflexivity|simpl in Hlen; lia].
  - cbn [seq flat_map]. rewrite <- seq_shift, flat_map_concat_map, map_map,
      <- flat_map_concat_map.
    replace (10 * 0)%nat with 0%nat by lia. cbn [skipn].
    transitivity (firstn 10 xs ++ skipn 10 xs); [|apply firstn_skipn]. f_equal.
    etransitivity; [|apply (IH (skipn 10 xs)); rewrite length_skipn; lia].
    apply flat_map_ext. intros i. rewrite skipn_skipn. do 2 f_equal. lia.
Qed.

Lemma page_rows merchants query p :
  1 <= p ->
  page merchants query p =
  firstn 10 (skipn (10 * Z.to_nat (p - 1)) (filter (matches query) merchants)).
Proof. intros Hp. unfold page, paginatedMerchants. cbn. now apply slice_page. Qed.

Lemma page_length merchants query p :
  1 <= p ->
  Z.of_nat (length (page merchants query p)) =
  Z.max 0 (Z.min 10 (Z.of_nat (length (filter (matches query) merchants)) - (p - 1) * 10)).
Proof.
  intros Hp. rewrite page_rows by assumption.
  rewrite length_firstn, length_skipn. lia.
Qed.

(** X12.  The pages of a search, first to last, put one after the other give
    back the matching merchants exactly, in order.  No page has more than
    ten rows, every page before the last has ten, the last has at least one,
    and any page after the last is empty. *)
Theorem pages_partition_the_matches : forall merchants query,
  let total := totalPages merchants {| searchQuery := query; currentPage := 1 |} in
  flat_map (fun i => page merchants query (Z.of_nat i + 1)) (seq 0 (Z.to_nat total))
    = filter (matches query) merchants
  /\
  forall p, 1 <= p ->
    (length (page merchants query p) <= 10)%nat /\
    (p < total -> length (page merchants query p) = 10%nat) /\
    (p = total -> (1 <= length (page merchants query p))%nat) /\
    (total < p -> page merchants query p = []).
Proof.
  intros merchants query total.
  set (matching := filter (matches query) merchants).
  assert (Hb := ceil_div_bounds (Z.of_nat (length matching)) ltac:(lia)).
  fold (totalPages merchants {| searchQuery := query; currentPage := 1 |}) in Hb.
  change (ceil_div (Z.of_nat (length matching)) itemsPerPage) with total in Hb.
  destruct Hb as [Hlo [Hhi [Hzero Hpos]]].
  split.
  - etransitivity; [|apply (flat_map_pages (Z.to_nat total) matching); lia].
    apply flat_map_ext. intros i. rewrite page_rows by lia.
    do 3 f_equal. lia.
  - intros p Hp. pose proof (page_length merchants query p Hp) as Hl.
    fold matching in Hl.
    destruct (Z.eqb_spec (Z.of_nat (length matching)) 0) as [E|E];
      repeat split; try lia; intros Hq.
    + apply length_zero_iff_nil. lia.
    + apply length_zero_iff_nil. lia.
Qed.

Lemma totalPages_query merchants st p :
  totalPages merchants {| searchQuery := searchQuery st; currentPage := p |} =
  totalPages merchants st.
Proof. reflexivity. Qed.

Lemma initial_in_range merchants : page_in_range merchants initial_state.
Proof. unfold page_in_range. cbn [currentPage initial_state]. lia. Qed.

Lemma handle_in_range merchants st e :
  page_in_range merchants st -> page_in_range merchants (handle merchants st e).
Proof.
  unfold page_in_range. intros H. destruct e as [query| |]; cbn [handle].
  - cbn [currentPage]. lia.
  - unfold prev_disabled. destruct (Z.eqb_spec (currentPage st) 1); [exact H|].
    cbn [currentPage]. rewrite totalPages_query. lia.
  - unfold next_disabled. destruct (Z.leb_spec (totalPages merchants st) (currentPage st));
      [exact H|].
    cbn [currentPage]. rewrite totalPages_query. lia.
Qed.

Lemma run_in_range merchants events : page_in_range merchants (run merchants events).
Proof.
  unfold run. generalize (initial_in_range merchants). generalize initial_state.
  induction events as [|e events IH]; intros st H; [exact H|].
  cbn [fold_left]. apply IH, handle_in_range, H.
Qed.

Lemma rows_of_state merchants st :
  paginatedMerchants merchants st = page merchants (searchQuery st) (currentPage st).
Proof. destruct st. reflexivity. Qed.

(** X13.  Whatever the user types and clicks, the page number stays between
    1 and the number of pages, and as long as some merchant matches the
    search the table shows at least one row and at most ten. *)
Theorem navigation_keeps_a_page_in_view : forall merchants events,
  let st := run merchants events in
  1 <= currentPage st <= Z.max 1 (totalPages merchants st) /\
  (length (paginatedMerchants merchants st) <= 10)%nat /\
  (filteredMerchants merchants st <> [] -> paginatedMerchants merchants st <> []).
Proof.
  intros merchants events st.
  pose proof (run_in_range merchants events) as H. fold st in H.
  unfold page_in_range in H. split; [exact H|].
  rewrite rows_of_state.
  pose proof (page_length merchants (searchQuery st) (currentPage st) ltac:(lia)) as Hl.
  split; [lia|]. intros Hne Hnil. rewrite Hnil in Hl. cbn [length] in Hl.
  unfold filteredMerchants in Hne.
  assert (Hn : 0 < Z.of_nat (length (filter (matches (searchQuery st)) merchants))).
  { destruct (filter (matches (searchQuery st)) merchants); [contradiction|cbn; lia]. }
  pose proof (ceil_div_bounds _ (Z.lt_le_incl _ _ Hn)) as [Hlo _].
  unfold totalPages, filteredMerchants in H.
  destruct (Z.eqb_spec (Z.of_nat (length (filter (matches (searchQuery st)) merchants))) 0);
    lia.
Qed.

(** X14.  The footer "Showing a-b of n" agrees with the rows of the table:
    after any typing and clicking, when some merchant matches, the rows shown
    are the matches number a to b, so b - a + 1 rows; when none matches the
    footer reads "Showing 1-0 of 0". *)
Theorem footer_counts_the_rows : forall merchants events,
  let st := run merchants events in
  let matching := filteredMerchants merchants st in
  showing_total merchants st = Z.of_nat (length matching) /\
  (matching <> [] ->
   paginatedMerchants merchants st =
     firstn (Z.to_nat (showing_last merchants st - showing_first st + 1))
            (skipn (Z.to_nat (showing_first st - 1)) matching) /\
   Z.of_nat (length (paginatedMerchants merchants st)) =
     showing_last merchants st - showing_first st + 1 /\
   1 <= showing_first st <= showing_last merchants st) /\
  (matching = [] -> showing_first st = 1 /\ showing_last merchants st = 0).
Proof.
  intros merchants events st matching.
  pose proof (run_in_range merchants events) as H. fold st in H.
  unfold page_in_range, totalPages in H. fold matching in H.
  split; [reflexivity|].
  unfold showing_first, showing_last, itemsPerPage. fold matching.
  split.
  - intros Hne.
    assert (Hn : 0 < Z.of_nat (length matching))
      by (destruct matching; [contradiction|cbn; lia]).
    pose proof (ceil_div_bounds _ (Z.lt_le_incl _ _ Hn)) as [Hlo [Hhi _]].
    destruct (Z.eqb_spec (Z.of_nat (length matching)) 0); [lia|].
    pose proof (page_length merchants (searchQuery st) (currentPage st) ltac:(lia)) as Hl.
    rewrite <- rows_of_state in Hl. fold (filteredMerchants merchants st) in Hl.
    fold matching in Hl.
    split; [|split; lia].
    rewrite rows_of_state, page_rows by lia.
    fold (filteredMerchants merchants st). fold matching.
    replace (Z.to_nat ((currentPage st - 1) * 10 + 1 - 1))
      with (10 * Z.to_nat (currentPage st - 1))%nat by lia.
    destruct (Z_le_gt_dec (currentPage st * 10) (Z.of_nat (length matching))).
    + f_equal. lia.
    + rewrite !firstn_all2; [reflexivity| |]; rewrite length_skipn; lia.
  - intros Hnil. rewrite Hnil in *. cbn [length] in *.
    assert (E : ceil_div (Z.of_nat 0) itemsPerPage = 0) by reflexivity.
    rewrite E in H. lia.
Qed.

(** X15.  Search: with the empty query every merchant is listed; a merchant
    is listed exactly when its name, its merchant id or its address contains
    the query, letter case ignored on both sides; and typing always goes back
    to the first page. *)
Theorem search_matches_name_id_or_address : forall merchants query,
  filteredMerchants merchants initial_state = merchants /\
  (forall m,
     In m (filteredMerchants merchants {| searchQuery := query; currentPage := 1 |}) <->
     In m merchants /\
     exists text pre post,
       (text = name m \/ text = merchantId m \/ text = address m) /\
       toLowerCase text = (pre ++ toLowerCase query ++ post)%string) /\
  filter (matches (toLowerCase query)) merchants = filter (matches query) merchants /\
  (forall st, currentPage (handle merchants st (Type_ query)) = 1 /\
              searchQuery (handle merchants st (Type_ query)) = query).
Proof.
  intros merchants query. repeat split.
  - unfold filteredMerchants. cbn [searchQuery initial_state].
    induction merchants as [|m l IH]; [reflexivity|].
    cbn [filter]. unfold matches at 1. cbn [toLowerCase]. rewrite includes_empty.
    cbn [orb]. now rewrite IH.
  - apply filter_In in H. apply H.
  - apply filter_In in H. destruct H as [_ H]. unfold matches in H.
    cbv zeta in H.
    apply orb_prop in H. destruct H as [H|H]; [apply orb_prop in H; destruct H as [H|H]|];
      apply includes_spec in H; destruct H as [pre [post E]]; eauto 10.
  - intros [Hin [text [pre [post [Ht E]]]]]. apply filter_In. split; [exact Hin|].
    assert (Hi : includes (toLowerCase text) (toLowerCase query) = true)
      by (apply includes_spec; eauto).
    unfold matches. cbn [searchQuery]. cbv zeta.
    destruct Ht as [-> | [-> | ->]]; rewrite Hi;
      rewrite ?orb_true_r; reflexivity.
  - apply filter_ext. intros m. unfold matches. cbv zeta.
    now rewrite toLowerCase_idempotent.
Qed.

End MerchantTableFacts.

(** ** The .env check script *)

Section DebugCheckFacts.
Import DebugCheck TwinChatClient.

Lemma split_cons sep s : exists piece pieces, split sep s = piece :: pieces.
Proof.
  induction s as [|c s [p [ps IH]]]; cbn [split]; [eauto|].
  destruct (Ascii.eqb c sep); [eauto|]. rewrite IH. eauto.
Qed.

(** Joining the pieces with the separator gives the string back. *)
Lemma join_split sep s : join (String sep "") (split sep s) = s.
Proof.
  induction s as [|c s IH]; [reflexivity|]. cbn [split].
  destruct (Ascii.eqb_spec c sep) as [->|Hne].
  - destruct (split_cons sep s) as [p [ps E]]. rewrite E in *.
    cbn [join]. destruct ps; cbn [append]; now rewrite <- IH.
  - destruct (split_cons sep s) as [p [ps E]]. rewrite E in *.
    destruct ps; cbn [join append] in *; now rewrite <- IH.
Qed.

Lemma join_cons sep p ps :
  join sep (p :: ps) = match ps with [] => p | _ => (p ++ sep ++ join sep ps)%string end.
Proof. destruct ps; reflexivity. Qed.

(** The first piece has no separator in it. *)
Lemma split_head sep s p ps : split sep s = p :: ps -> has_char sep p = false.
Proof.
  revert p ps. induction s as [|c s IH]; cbn [split]; intros p ps H.
  - inversion H. reflexivity.
  - destruct (Ascii.eqb c sep) eqn:E.
    + inversion H. reflexivity.
    + destruct (split_cons sep s) as [q [qs Eq]]. rewrite Eq in H. inversion H; subst.
      unfold has_char. cbn [list_ascii_of_string existsb].
      rewrite Ascii.eqb_sym, E. apply (IH _ _ Eq).
Qed.

(** A string without the separator is one piece; a piece before the first
    separator is split off whole. *)
Lemma split_without sep s : has_char sep s = false -> split sep s = [s].
Proof.
  unfold has_char. induction s as [|c s IH]; [reflexivity|].
  cbn [list_ascii_of_string existsb split]. intros H.
  apply orb_false_elim in H. destruct H as [Hc Hs].
  rewrite Ascii.eqb_sym, Hc, (IH Hs). reflexivity.
Qed.

Lemma split_app sep key rest :
  has_char sep key = false ->
  split sep (key ++ String sep rest) = key :: split sep rest.
Proof.
  unfold has_char. induction key as [|c key IH]; cbn [append list_ascii_of_string existsb split].
  - intros _. rewrite Ascii.eqb_refl. reflexivity.
  - intros H. apply orb_false_elim in H. destruct H as [Hc Hk].
    rewrite Ascii.eqb_sym, Hc, (IH Hk). reflexivity.
Qed.

Lemma startsWith_app key rest p :
  key <> "" -> startsWith (key ++ rest) (String p "") = startsWith key (String p "").
Proof.
  destruct key as [|c key]; [contradiction|]. intros _. unfold startsWith. cbn.
  destruct (ascii_dec p c); [|reflexivity]. now rewrite !prefix_empty.
Qed.

(** X16.  A line of the .env file yields the assignment [key = value]
    exactly when, once trimmed, it is [key=value] or just [key] (then with
    the empty value), for a key that is not empty, has no "=" in it and does
    not begin with "#".  The value is everything after the first "=", further
    "=" signs included. *)
Theorem env_line_keeps_value_whole : forall line key value,
  parse_line line = Some (key, value) <->
  key <> "" /\ has_char equals_sign key = false /\ startsWith key "#" = false /\
  (trim line = (key ++ "=" ++ value)%string \/ (trim line = key /\ value = "")).
Proof.
  intros line key value. unfold parse_line. cbv zeta. split.
  - destruct (is_empty (trim line)) eqn:He; [discriminate|].
    destruct (startsWith (trim line) "#") eqn:Hh; [discriminate|]. cbn [negb andb].
    destruct (split equals_sign (trim line)) as [|k parts] eqn:Es; [discriminate|].
    destruct (is_empty k) eqn:Hk; [discriminate|]. cbn [negb].
    intros H. inversion H; subst. clear H.
    pose proof (join_split equals_sign (trim line)) as J. rewrite Es, join_cons in J.
    assert (Hne : key <> "") by (destruct key; [discriminate|discriminate]).
    split; [exact Hne|]. split; [apply (split_head _ _ _ _ Es)|]. split.
    + destruct parts; rewrite <- J in Hh; [exact Hh|].
      rewrite startsWith_app in Hh; assumption.
    + destruct parts as [|q qs]; [right; split; [symmetry; exact J|reflexivity]|].
      left. symmetry. exact J.
  - intros [Hne [Hk [Hh [E|[E ->]]]]].
    + rewrite E.
      assert (He : is_empty (key ++ "=" ++ value) = false)
        by (destruct key; [contradiction|reflexivity]).
      rewrite He, (startsWith_app key _ "#" Hne), Hh. cbn [negb andb].
      change (key ++ "=" ++ value)%string with (key ++ String equals_sign value)%string.
      rewrite (split_app _ _ _ Hk).
      destruct key; [contradiction|]. cbn [is_empty negb].
      change "="%string with (String equals_sign ""). now rewrite join_split.
    + rewrite E, (split_without _ _ Hk), Hh.
      destruct key; [contradiction|]. reflexivity.
Qed.

Lemma env_line_keeps_value_whole_witness :
  parse_line "  POSTGRES_URL=postgres://u:p@host/db?sslmode=require&a=b  "
  = Some ("POSTGRES_URL", "postgres://u:p@host/db?sslmode=require&a=b").
Proof.
  apply (env_line_keeps_value_whole
           "  POSTGRES_URL=postgres://u:p@host/db?sslmode=require&a=b  "
           "POSTGRES_URL" "postgres://u:p@host/db?sslmode=require&a=b").
  split; [discriminate|]. split; [reflexivity|]. split; [reflexivity|].
  left. reflexivity.
Defined.

Lemma last_char s : s <> "" -> exists b c, s = (b ++ String c "")%string.
Proof.
  induction s as [|x s IH]; [contradiction|]. intros _.
  destruct s as [|y s].
  - exists "", x. reflexivity.
  - destruct (IH ltac:(discriminate)) as [b [c E]]. exists (String x b), c.
    cbn [append]. now rewrite <- E.
Qed.

Lemma blank_last b c : blank (b ++ String c "") = true -> is_white_space c = true.
Proof.
  induction b as [|x b IH]; cbn [append blank]; intros H;
    apply andb_prop in H; destruct H as [H1 H2]; auto.
Qed.

(** A value taken from a line is either empty or not blank. *)
Lemma parsed_value_not_blank line key value :
  parse_line line = Some (key, value) -> value <> "" -> blank value = false.
Proof.
  intros H Hne. apply env_line_keeps_value_whole in H.
  destruct H as [_ [_ [_ [E|[_ E]]]]]; [|contradiction].
  destruct (last_char value Hne) as [b [c Ev]].
  destruct (blank value) eqn:B; [|reflexivity].
  rewrite Ev in B. apply blank_last in B.
  rewrite Ev, <- !append_assoc in E. apply trim_last in E. congruence.
Qed.

Lemma parse_env_values content : values_not_blank (parse_env content).
Proof.
  unfold parse_env.
  assert (H : values_not_blank []) by (intros k v []).
  revert H. generalize (@nil (string * string)).
  induction (split line_feed content) as [|line lines IH]; intros acc H; [exact H|].
  cbn [fold_left]. apply IH. unfold assign.
  destruct (parse_line line) as [[k v]|] eqn:E; [|exact H].
  intros k' v' [Hin|Hin] Hne.
  - inversion Hin; subst. apply (parsed_value_not_blank line k' v' E Hne).
  - apply (H k' v' Hin Hne).
Qed.

Lemma read_In envVars name v : read envVars name = Some v -> exists k, In (k, v) envVars.
Proof.
  induction envVars as [|[k w] rest IH]; cbn [read]; [discriminate|].
  destruct (String.eqb k name).
  - intros H. inversion H; subst. exists k. now left.
  - intros H. destruct (IH H) as [k' Hin]. exists k'. now right.
Qed.

(** X17.  For the variables of a parsed .env file, "missing or blank" and
    "missing" are the same test: lines are trimmed before they are split, so
    no value consists of white space only, and the extra [trim() === ''] test
    on GOOGLE_CLIENT_ID never changes the outcome. *)
Theorem blank_test_is_redundant : forall envContent name,
  missing_or_blank (parse_env envContent) name = missing (parse_env envContent) name.
Proof.
  intros envContent name. unfold missing_or_blank, missing.
  destruct (read (parse_env envContent) name) as [v|] eqn:E; [|reflexivity].
  destruct v as [|c v]; [reflexivity|]. cbn [is_empty orb].
  destruct (read_In _ _ _ E) as [k Hin].
  pose proof (parse_env_values envContent k _ Hin ltac:(discriminate)) as B.
  destruct (trim (String c v)) eqn:T; [|reflexivity].
  apply trim_blank in T. congruence.
Qed.

(** X18.  Without a .env file the script reports that and checks nothing
    else.  With one, every run reports on BETTER_AUTH_SECRET (H4) and on
    GOOGLE_CLIENT_ID (H5) exactly once each, as its last two entries,
    however the database part went; and the database is tried exactly when
    POSTGRES_URL has a non-empty value. *)
Theorem debug_check_always_reaches_the_last_checks : forall envContent db,
  main false envContent db =
    [Log "Starting debug check" NoData "init";
     Log ".env file missing" NoData "H1"; Console ".env file missing"]
  /\
  (exists before h4 h5,
     main true envContent db = before ++ [Log h4 NoData "H4"; Log h5 NoData "H5"] /\
     count_hypothesis "H4" (main true envContent db) = 1%nat /\
     count_hypothesis "H5" (main true envContent db) = 1%nat /\
     (h5 = "GOOGLE_CLIENT_ID present" <->
      exists c v, read (parse_env envContent) "GOOGLE_CLIENT_ID" = Some (String c v)))
  /\
  (count_hypothesis "H3" (main true envContent db) = 0%nat <->
   missing (parse_env envContent) "POSTGRES_URL" = true).
Proof.
  intros envContent db. split; [reflexivity|].
  unfold main. cbn [negb]. rewrite blank_test_is_redundant.
  set (envVars := parse_env envContent).
  split.
  - eexists; exists
      (if missing envVars "BETTER_AUTH_SECRET"
       then "BETTER_AUTH_SECRET missing" else "BETTER_AUTH_SECRET present"),
      (if missing envVars "GOOGLE_CLIENT_ID"
       then "GOOGLE_CLIENT_ID missing or empty" else "GOOGLE_CLIENT_ID present").
    split; [|split; [|split]].
    + rewrite app_comm_cons. rewrite !app_assoc. rewrite <- app_assoc.
      f_equal. destruct (missing envVars "BETTER_AUTH_SECRET"),
        (missing envVars "GOOGLE_CLIENT_ID"); reflexivity.
    + destruct (missing envVars "POSTGRES_URL"), db,
        (missing envVars "BETTER_AUTH_SECRET"), (missing envVars "GOOGLE_CLIENT_ID");
        reflexivity.
    + destruct (missing envVars "POSTGRES_URL"), db,
        (missing envVars "BETTER_AUTH_SECRET"), (missing envVars "GOOGLE_CLIENT_ID");
        reflexivity.
    + unfold missing. destruct (read envVars "GOOGLE_CLIENT_ID") as [[|c v]|]; cbn [is_empty].
      * split; [discriminate|]. intros [c [v H]]. discriminate.
      * split; [eauto|reflexivity].
      * split; [discriminate|]. intros [c [v H]]. discriminate.
  - destruct (missing envVars "POSTGRES_URL"), db,
      (missing envVars "BETTER_AUTH_SECRET"), (missing envVars "GOOGLE_CLIENT_ID");
      cbn; split; intros H; try reflexivity; try discriminate.
Qed.

End DebugCheckFacts.

(** ** The route protection middleware *)

Section MiddlewareFacts.
Import Middleware.

(** X19.  The middleware lets every request through: "/" is among the
    public paths and every path under /dashboard begins with it, so the
    redirect to the sign-in page is never taken, with or without a session
    cookie. *)
Theorem middleware_never_redirects : forall pathname sessionCookie,
  middleware pathname sessionCookie = Next.
Proof.
  intros pathname sessionCookie. unfold middleware.
  destruct (existsb (fun path => startsWith pathname path) publicPaths) eqn:E;
    [reflexivity|].
  destruct sessionCookie; [reflexivity|].
  destruct (startsWith pathname "/dashboard") eqn:D; [|reflexivity].
  unfold startsWith in D. apply prefix_split in D. destruct D as [r ->].
  cbn in E. discriminate.
Qed.

End MiddlewareFacts.

(** ** The geo hierarchy tree *)

Section GeoTreeFacts.
Import GeoTree.

Lemma has_delete s id x : has (delete s id) x = has s x && negb (String.eqb x id).
Proof.
  unfold has, delete. induction s as [|y s IH]; [reflexivity|].
  cbn [filter existsb].
  destruct (String.eqb id y) eqn:Eiy; cbn [negb].
  - apply String.eqb_eq in Eiy. subst y. rewrite IH.
    destruct (String.eqb x id); cbn [orb negb andb];
      [now rewrite andb_false_r|reflexivity].
  - cbn [existsb]. rewrite IH.
    destruct (String.eqb x y) eqn:Exy; cbn [orb]; [|reflexivity].
    apply String.eqb_eq in Exy. subst y. rewrite String.eqb_sym, Eiy. reflexivity.
Qed.

Lemma has_add s id x : has (add s id) x = has s x || String.eqb x id.
Proof.
  unfold add. destruct (has s id) eqn:H.
  - destruct (String.eqb x id) eqn:E; [|now rewrite orb_false_r].
    apply String.eqb_eq in E. subst x. now rewrite H.
  - unfold has. rewrite existsb_app. cbn [existsb]. now rewrite orb_false_r.
Qed.

Lemma NoDup_delete s id : NoDup s -> NoDup (delete s id).
Proof. apply NoDup_filter. Qed.

Lemma NoDup_add s id : NoDup s -> NoDup (add s id).
Proof.
  intros H. unfold add. destruct (has s id) eqn:E; [exact H|].
  apply NoDup_app; [exact H|repeat constructor; intros []|].
  intros x Hx [Hid|[]]. subst x. unfold has in E.
  assert (existsb (String.eqb id) s = true)
    by (apply existsb_exists; exists id; split; [exact Hx|apply String.eqb_refl]).
  congruence.
Qed.

(** X20.  Toggling a node flips the expansion of that node and of no other;
    toggling it twice leaves every node as it was; the set never holds an id
    twice; and a click on a location without children leaves the expansion
    untouched, while a click on one with children toggles it. *)
Theorem toggle_flips_one_node : forall id (expanded : StringSet),
  (forall x, has (toggleExpanded id expanded) x =
             xorb (String.eqb x id) (has expanded x)) /\
  (forall x, has (toggleExpanded id (toggleExpanded id expanded)) x = has expanded x) /\
  (NoDup expanded -> NoDup (toggleExpanded id expanded)) /\
  (forall node x,
     has (fst (click node expanded)) x =
     xorb (hasChildren node && String.eqb x (id_of node)) (has expanded x)).
Proof.
  intros id expanded.
  assert (H1 : forall s x, has (toggleExpanded id s) x = xorb (String.eqb x id) (has s x)).
  { intros s x. unfold toggleExpanded. destruct (has s id) eqn:E.
    - rewrite has_delete. destruct (String.eqb x id) eqn:Ex; cbn [negb xorb].
      + apply String.eqb_eq in Ex. subst x. now rewrite E.
      + now rewrite andb_true_r.
    - rewrite has_add. destruct (String.eqb x id) eqn:Ex; cbn [xorb].
      + apply String.eqb_eq in Ex. subst x. now rewrite E.
      + now rewrite orb_false_r. }
  split; [apply H1|]. split; [|split].
  - intros x. rewrite !H1. destruct (String.eqb x id), (has expanded x); reflexivity.
  - intros H. unfold toggleExpanded.
    destruct (has expanded id); [now apply NoDup_delete|now apply NoDup_add].
  - intros node x. unfold click. cbn [fst].
    destruct (hasChildren node); cbn [andb]; [|reflexivity].
    unfold toggleExpanded. destruct (has expanded (id_of node)) eqn:E.
    + rewrite has_delete. destruct (String.eqb x (id_of node)) eqn:Ex; cbn [negb xorb].
      * apply String.eqb_eq in Ex. subst x. now rewrite E.
      * now rewrite andb_true_r.
    + rewrite has_add. destruct (String.eqb x (id_of node)) eqn:Ex; cbn [xorb].
      * apply String.eqb_eq in Ex. subst x. now rewrite E.
      * now rewrite orb_false_r.
Qed.

(** Induction over locations, through the optional list of children. *)
Section GeoInduction.

Variable P : GeoLocation -> Prop.
Hypothesis P_location : forall node, Forall P (children_of node) -> P node.

Fixpoint geo_induction (node : GeoLocation) : P node :=
  match node as n return Forall P (children_of n) -> P n with
  | Location id name type_ children => fun H => P_location _ H
  end
  (match node as n return Forall P (children_of n) with
   | Location id name type_ children =>
       match children as c return Forall P (children_of (Location id name type_ c)) with
       | Some kids =>
           (fix go (l : list GeoLocation) : Forall P l :=
              match l with
              | [] => Forall_nil _
              | k :: rest => Forall_cons k (geo_induction k) (go rest)
              end) kids
       | None => Forall_nil _
       end
   end).

End GeoInduction.

(** The rows of a rendered node: its own, then its children's if it is
    expanded. *)
Lemma rows_renderNode expanded selectedId level node :
  rows (renderNode expanded selectedId level node) =
  id_of node ::
  (if has expanded (id_of node)
   then flat_map (fun k => rows (renderNode expanded selectedId (S level) k))
          (children_of node)
   else []).
Proof.
  destruct node as [id name type_ [[|k ks]|]]; cbn [renderNode rows id_of children_of].
  - destruct (has expanded id); reflexivity.
  - cbn [andb]. destruct (has expanded id); [|reflexivity].
    now rewrite flat_map_concat_map, map_map, <- flat_map_concat_map.
  - destruct (has expanded id); reflexivity.
Qed.

Lemma ids_node node : ids node = id_of node :: flat_map ids (children_of node).
Proof. destruct node as [id name type_ [kids|]]; reflexivity. Qed.

Lemma flat_map_ext_in {A B} (f g : A -> list B) l :
  (forall x, In x l -> f x = g x) -> flat_map f l = flat_map g l.
Proof.
  induction l as [|x l IH]; intros H; [reflexivity|].
  cbn [flat_map]. rewrite (H x (or_introl eq_refl)), IH; [reflexivity|].
  intros y Hy. apply H. now right.
Qed.

Lemma rows_collapsed selectedId node : forall level,
  rows (renderNode [] selectedId level node) = [id_of node].
Proof. intros level. rewrite rows_renderNode. reflexivity. Qed.

Lemma rows_expanded expanded selectedId node : forall level,
  (forall x, In x (ids node) -> has expanded x = true) ->
  rows (renderNode expanded selectedId level node) = ids node.
Proof.
  induction node as [node IH] using geo_induction. intros level H.
  rewrite rows_renderNode, ids_node.
  rewrite (H (id_of node)) by (rewrite ids_node; now left). f_equal.
  apply flat_map_ext_in. intros k Hk. rewrite Forall_forall in IH.
  apply (IH k Hk). intros x Hx. apply H. rewrite ids_node. right.
  apply in_flat_map. eauto.
Qed.

Lemma rows_within expanded selectedId node : forall level,
  incl (rows (renderNode expanded selectedId level node)) (ids node).
Proof.
  induction node as [node IH] using geo_induction. intros level x Hx.
  rewrite rows_renderNode in Hx. rewrite ids_node.
  destruct Hx as [<-|Hx]; [now left|]. right.
  destruct (has expanded (id_of node)); [|destruct Hx].
  apply in_flat_map in Hx. destruct Hx as [k [Hk Hx]].
  apply in_flat_map. exists k. split; [exact Hk|].
  rewrite Forall_forall in IH. apply (IH k Hk (S level)), Hx.
Qed.

Lemma rows_monotone e e' selectedId node : forall level,
  (forall x, has e x = true -> has e' x = true) ->
  incl (rows (renderNode e selectedId level node)) (rows (renderNode e' selectedId level node)).
Proof.
  induction node as [node IH] using geo_induction. intros level H x Hx.
  rewrite rows_renderNode in *. destruct Hx as [<-|Hx]; [now left|]. right.
  destruct (has e (id_of node)) eqn:E; [|destruct Hx]. rewrite (H _ E).
  apply in_flat_map in Hx. destruct Hx as [k [Hk Hx]].
  apply in_flat_map. exists k. split; [exact Hk|].
  rewrite Forall_forall in IH. apply (IH k Hk (S level) H), Hx.
Qed.

(** X21.  What the tree shows.  With nothing expanded it shows exactly the
    top-level locations; with every location expanded it shows every
    location, parents before children; in between it shows only locations of
    the data, always including the top-level ones, and expanding more nodes
    never hides a row. *)
Theorem tree_shows_expanded_branches : forall selectedId (data : list GeoLocation),
  on_screen [] selectedId data = map id_of data /\
  (forall expanded,
     (forall x, In x (flat_map ids data) -> has expanded x = true) ->
     on_screen expanded selectedId data = flat_map ids data) /\
  (forall expanded,
     incl (on_screen expanded selectedId data) (flat_map ids data) /\
     incl (map id_of data) (on_screen expanded selectedId data)) /\
  (forall e e',
     (forall x, has e x = true -> has e' x = true) ->
     incl (on_screen e selectedId data) (on_screen e' selectedId data)).
Proof.
  intros selectedId data. unfold on_screen, render.
  split; [|split; [|split]].
  - rewrite flat_map_concat_map, map_map, <- flat_map_concat_map.
    induction data as [|n data IH]; [reflexivity|].
    cbn [flat_map map]. rewrite rows_collapsed, IH. reflexivity.
  - intros expanded H. rewrite flat_map_concat_map, map_map, <- flat_map_concat_map.
    apply flat_map_ext_in. intros n Hn. apply rows_expanded.
    intros x Hx. apply H. apply in_flat_map. eauto.
  - intros expanded. split; intros x Hx.
    + apply in_flat_map in Hx. destruct Hx as [r [Hr Hx]].
      apply in_map_iff in Hr. destruct Hr as [n [<- Hn]].
      apply in_flat_map. exists n. split; [exact Hn|]. apply (rows_within _ _ _ _ _ Hx).
    + apply in_map_iff in Hx. destruct Hx as [n [<- Hn]].
      apply in_flat_map. exists (renderNode expanded selectedId 0 n).
      split; [apply in_map, Hn|]. rewrite rows_renderNode. now left.
  - intros e e' H x Hx.
    apply in_flat_map in Hx. destruct Hx as [r [Hr Hx]].
    apply in_map_iff in Hr. destruct Hr as [n [<- Hn]].
    apply in_flat_map. exists (renderNode e' selectedId 0 n).
    split; [apply in_map, Hn|]. apply (rows_monotone e e' _ _ _ H _ Hx).
Qed.

End GeoTreeFacts.
